(** * kepler.gl map-style reducer: [src/reducers/map-style-updaters.js]

    A shallow embedding of the map-style updaters and of [getMapStyles],
    [get3DBuildingColor] and [getLayerGroupsFromStyle], followed by the
    properties of the map-style composition engine.

    JavaScript objects used as dictionaries are finite maps ([gmap string _]);
    a property that may be absent, [null] or [undefined] is an [option];
    a [TypeError] raised by the source is a [Throw] in the [Result] monad. *)

From Stdlib Require Import QArith.
From stdpp Require Import base option list strings gmap fin_maps.

Local Open Scope string_scope.
Local Open Scope list_scope.

(** ** Exceptions *)

Inductive JsError : Type :=
| TypeError (msg : string).

Inductive Result (A : Type) : Type :=
| Ok (a : A)
| Throw (e : JsError).
Arguments Ok {A} a.
Arguments Throw {A} e.

Definition bind {A B} (m : Result A) (k : A -> Result B) : Result B :=
  match m with
  | Ok a => k a
  | Throw e => Throw e
  end.

Notation "'let*' x ':=' m 'in' k" := (bind m (fun x => k))
  (at level 10, x name, m at level 100, k at level 200).

(** [Array.prototype.filter] with a callback that may throw: the first
    exception aborts the traversal. *)
Fixpoint filterM {A} (p : A -> Result bool) (l : list A) : Result (list A) :=
  match l with
  | [] => Ok []
  | x :: l' =>
      let* keep := p x in
      let* rest := filterM p l' in
      Ok (if keep : bool then x :: rest else rest)
  end.

(** ** Data model *)

(** A layer of a style document: [id], [paint] (property -> value) and
    [layout]. *)
Record Layer : Type := {
  layer_id : string;
  layer_paint : option (gmap string string);
  layer_layout : option (gmap string string)
}.

(** A style document: the fields the reducer reads ([id], [name], [layers]). *)
Record StyleDocument : Type := {
  doc_id : option string;
  doc_name : option string;
  layers : option (list Layer)
}.

(** An entry of [DEFAULT_LAYER_GROUPS]. *)
Record LayerGroup : Type := {
  slug : string;
  filter_ : Layer -> bool;
  defaultVisibility : bool
}.

(** The value of the [error] key of a style entry. *)
Inductive ErrorField : Type :=
| ErrFalse
| ErrValue (msg : string).

(** A style entry: the shape shared by the values of [mapStyles] and by
    [inputStyle] (which [addCustomMapStyleUpdater] stores into [mapStyles]). *)
Record MapStyle : Type := {
  ms_id : option string;
  ms_label : option string;
  ms_url : option string;
  ms_icon : option string;
  ms_style : option StyleDocument;
  ms_layerGroups : option (list LayerGroup);
  ms_accessToken : option string;
  ms_error : option ErrorField;
  ms_isValid : option bool;
  ms_custom : option bool
}.

(** The object built by [Immutable.fromJS]: a persistent collection holding
    the tree it was built from; [toJS] reads the tree back. *)
Inductive ImmutableDoc : Type :=
| fromJS (d : StyleDocument).

Definition toJS (i : ImmutableDoc) : StyleDocument :=
  match i with fromJS d => d end.

(** Layer-group visibility, [{[slug]: boolean}]. *)
Abbreviation VisibilityMap := (gmap string bool).
(** The masked top visibility: a key may carry [undefined] ([None]). *)
Abbreviation MaskedMap := (gmap string (option bool)).

(** The colour object of d3-color. *)
Record Rgb (num : Type) : Type := {
  rgb_r : num;
  rgb_g : num;
  rgb_b : num
}.
Arguments rgb_r {num} _.
Arguments rgb_g {num} _.
Arguments rgb_b {num} _.

(** ** JavaScript helpers *)

Definition Object_keys {V} (m : gmap string V) : list string :=
  (map_to_list m).*1.

Definition Object_values {V} (m : gmap string V) : list V :=
  (map_to_list m).*2.

(** Truthiness of a string, of an optional string and of a value that is a
    boolean or [undefined]. *)
Definition truthy_string (s : string) : bool :=
  negb (String.eqb s "").

Definition truthy_ostring (o : option string) : bool :=
  match o with
  | Some s => truthy_string s
  | None => false
  end.

Definition truthy (o : option bool) : bool :=
  match o with
  | Some b => b
  | None => false
  end.

(** [a && b] on values that are booleans or [undefined]. *)
Definition js_and (a b : option bool) : option bool :=
  if truthy a then b else a.

(** [a || b] on optional strings. *)
Definition js_or (a b : option string) : option string :=
  if truthy_ostring a then a else b.

(** The key a computed property name [[k]] gives when [k] may be
    [undefined]. *)
Definition property_key (k : option string) : string :=
  match k with
  | Some s => s
  | None => "undefined"
  end.

(** [JSON.parse(JSON.stringify(style))]: a deep copy of the tree. *)
Definition json_copy (d : StyleDocument) : StyleDocument := d.

(** The regular expression [/(?=(dark|night))/]: a lookahead for one of the
    two literals, tried by [String.prototype.match] at every index from the
    left. *)
Definition lookahead_dark_night (s : string) : bool :=
  String.prefix "dark" s || String.prefix "night" s.

Fixpoint match_dark_night (s : string) : bool :=
  lookahead_dark_night s ||
  match s with
  | EmptyString => false
  | String _ s' => match_dark_night s'
  end.

(** [sub] occurs in [s]. *)
Definition has_substring (sub s : string) : Prop :=
  ∃ pre post, s = String.append pre (String.append sub post).

(** [l] is the first layer of the document whose id is ["background"]. *)
Definition is_background_layer (doc : StyleDocument) (l : Layer) : Prop :=
  ∃ pre post,
    layers doc = Some (pre ++ l :: post) ∧
    layer_id l = "background" ∧
    Forall (fun x => layer_id x ≠ "background") pre.

(** The background layer of the document has the paint property
    [background-color], set to the (non-empty) value [c]. *)
Definition background_color_of (doc : StyleDocument) (c : string) : Prop :=
  ∃ l paint,
    is_background_layer doc l ∧
    layer_paint l = Some paint ∧
    paint !! "background-color" = Some c ∧
    c ≠ "".

(** ** Imported modules

    The utilities of [utils/map-style-utils/mapbox-gl-style-editor],
    [utils/utils], [utils/color-utils], the constants of
    [constants/default-settings] and the d3-color library are imported by the
    reducer and are not part of it; the updaters are parametric in them. *)
Class Env : Type := {
  (** JavaScript numbers, as d3-color produces them. *)
  num : Type;
  (* utils/map-style-utils/mapbox-gl-style-editor *)
  getDefaultLayerGroupVisibility : MapStyle -> VisibilityMap;
  mergeLayerGroupVisibility : VisibilityMap -> VisibilityMap -> VisibilityMap;
  editTopMapStyle : string -> MapStyle -> MaskedMap -> ImmutableDoc;
  editBottomMapStyle : string -> MapStyle -> VisibilityMap -> ImmutableDoc;
  isValidStyleUrl : option string -> bool;
  getStyleDownloadUrl : option string -> option string -> string;
  (* constants/default-settings *)
  DEFAULT_MAP_STYLES : list MapStyle;
  DEFAULT_LAYER_GROUPS : list LayerGroup;
  (* utils/utils: the identifier the generator draws *)
  generateHashId : string;
  (* utils/color-utils *)
  hexToRgb : string -> list num;
  (* d3-color *)
  rgb : string -> Rgb num;
  brighter : Rgb num -> list Q -> Rgb num;
  darker : Rgb num -> list Q -> Rgb num
}.

Definition DEFAULT_BLDG_COLOR : string := "#D1CEC7".

(** ** State *)

Section Updaters.
Context {E : Env}.

(** An object that is spread over the state: the payload of
    [mapConfigChangeUpdater], the [mapStyle] key of a saved map config and
    the [initialState] the application provides.  It may carry any key of the
    state; a key that is carried with the value [null] is [Some None]. *)
#[warnings="-register-all"]
Inductive MapStyleConfig : Type := Build_MapStyleConfig {
  cfg_styleType : option string;
  cfg_visibleLayerGroups : option VisibilityMap;
  cfg_topLayerGroups : option VisibilityMap;
  cfg_mapStyles : option (gmap string MapStyle);
  cfg_mapboxApiAccessToken : option (option string);
  cfg_inputStyle : option MapStyle;
  cfg_threeDBuildingColor : option (list num);
  cfg_bottomMapStyle : option (option ImmutableDoc);
  cfg_topMapStyle : option (option ImmutableDoc);
  cfg_editable : option (option nat);
  cfg_initialState : option (option MapStyleConfig)
}.

(** The object [{}]. *)
Definition noKeys : MapStyleConfig := {|
  cfg_styleType := None;
  cfg_visibleLayerGroups := None;
  cfg_topLayerGroups := None;
  cfg_mapStyles := None;
  cfg_mapboxApiAccessToken := None;
  cfg_inputStyle := None;
  cfg_threeDBuildingColor := None;
  cfg_bottomMapStyle := None;
  cfg_topMapStyle := None;
  cfg_editable := None;
  cfg_initialState := None
|}.

(** The [mapStyle] slice of the reducer.  [bottomMapStyle], [topMapStyle],
    [editable] and [initialState] are absent from the default state; an
    absent key and [null] are both [None]. *)
Record MapStyleState : Type := {
  styleType : string;
  visibleLayerGroups : VisibilityMap;
  topLayerGroups : VisibilityMap;
  mapStyles : gmap string MapStyle;
  mapboxApiAccessToken : option string;
  inputStyle : MapStyle;
  threeDBuildingColor : list num;
  bottomMapStyle : option ImmutableDoc;
  topMapStyle : option ImmutableDoc;
  editable : option nat;
  initialState : option MapStyleConfig
}.

(** The object [getMapStyles] returns when the active style is loaded. *)
Record MapStyles : Type := {
  res_bottomMapStyle : ImmutableDoc;
  res_topMapStyle : option ImmutableDoc;
  res_editable : nat;
  res_threeDBuildingColor : list num
}.

(** A request handed to [LOAD_MAP_STYLE_TASK]. *)
Record LoadMapStyleTask : Type := {
  task_id : option string;
  task_url : string
}.

Definition getInitialInputStyle : MapStyle := {|
  ms_id := None;
  ms_label := None;
  ms_url := None;
  ms_icon := None;
  ms_style := None;
  ms_layerGroups := None;
  ms_accessToken := None;
  ms_error := Some ErrFalse;
  ms_isValid := Some false;
  ms_custom := Some true
|}.

Definition getDefaultState : MapStyleState := {|
  styleType := "light";
  visibleLayerGroups := ∅;
  topLayerGroups := ∅;
  mapStyles :=
    foldl (fun accu curr => <[property_key (ms_id curr) := curr]> accu)
          ∅ DEFAULT_MAP_STYLES;
  mapboxApiAccessToken := None;
  inputStyle := getInitialInputStyle;
  threeDBuildingColor := hexToRgb DEFAULT_BLDG_COLOR;
  bottomMapStyle := None;
  topMapStyle := None;
  editable := None;
  initialState := None
|}.

Definition INITIAL_MAP_STYLE : MapStyleState := getDefaultState.

(** ** [get3DBuildingColor] and [getLayerGroupsFromStyle] *)

Inductive Operation : Type := Brighter | Darker.

Definition apply_operation (op : Operation) : Rgb num -> list Q -> Rgb num :=
  match op with
  | Brighter => brighter
  | Darker => darker
  end.

(** [(layers || []).find(({id}) => id === 'background')] *)
Definition backgroundLayer (doc : StyleDocument) : option Layer :=
  List.find (fun l => String.eqb (layer_id l) "background") (default [] (layers doc)).

(** [backgroundLayer && backgroundLayer.paint &&
     backgroundLayer.paint['background-color'] ? ... : DEFAULT_BLDG_COLOR] *)
Definition buildingColor (doc : StyleDocument) : string :=
  match backgroundLayer doc with
  | Some l =>
      match layer_paint l with
      | Some paint =>
          match paint !! "background-color" with
          | Some c => if truthy_string c then c else DEFAULT_BLDG_COLOR
          | None => DEFAULT_BLDG_COLOR
          end
      | None => DEFAULT_BLDG_COLOR
      end
  | None => DEFAULT_BLDG_COLOR
  end.

(** [style.id.match(/(?=(dark|night))/) ? 'brighter' : 'darker'] *)
Definition operation (id : string) : Operation :=
  if match_dark_night id then Brighter else Darker.

Definition get3DBuildingColor (style : MapStyle) : Result (list num) :=
  match ms_style style with
  | None => Throw (TypeError "Cannot read property 'layers' of null")
  | Some doc =>
      let buildingColor := buildingColor doc in
      match ms_id style with
      | None => Throw (TypeError "Cannot read property 'match' of undefined")
      | Some id =>
          let rgbObj := apply_operation (operation id) (rgb buildingColor) [0.2%Q] in
          Ok [rgb_r rgbObj; rgb_g rgbObj; rgb_b rgbObj]
      end
  end.

(** [DEFAULT_LAYER_GROUPS.filter(lg => style.layers.filter(lg.filter).length)]:
    the callback reads [style.layers.filter], which throws when [layers] is
    missing. *)
Definition getLayerGroupsFromStyle (style : StyleDocument) : Result (list LayerGroup) :=
  filterM
    (fun lg =>
       match layers style with
       | None => Throw (TypeError "Cannot read property 'filter' of undefined")
       | Some ls => Ok (negb (Nat.eqb (length (List.filter (filter_ lg) ls)) 0))
       end)
    DEFAULT_LAYER_GROUPS.

(** ** [getMapStyles] *)

(** The reduce over [Object.keys(topLayerGroups)] that mutes a top layer
    group not visible in the bottom map. *)
Definition topLayers (topLayerGroups visibleLayerGroups : VisibilityMap) : MaskedMap :=
  foldl
    (fun accu key =>
       <[key := js_and (topLayerGroups !! key) (visibleLayerGroups !! key)]> accu)
    ∅ (Object_keys topLayerGroups).

Definition getMapStyles (s : MapStyleState) : Result (option MapStyles) :=
  match mapStyles s !! styleType s with
  | None => Ok None
  | Some mapStyle =>
      match ms_style mapStyle with
      | None => Ok None
      | Some style =>
          let editable := length (Object_keys (visibleLayerGroups s)) in
          let bottomMapStyle :=
            if Nat.eqb editable 0
            then fromJS style
            else editBottomMapStyle (styleType s) mapStyle (visibleLayerGroups s) in
          let hasTopLayer :=
            negb (Nat.eqb editable 0) &&
            existsb (fun v => v) (Object_values (topLayerGroups s)) in
          let topMapStyle :=
            if hasTopLayer
            then Some (editTopMapStyle (styleType s) mapStyle
                         (topLayers (topLayerGroups s) (visibleLayerGroups s)))
            else None in
          let* threeDBuildingColor := get3DBuildingColor mapStyle in
          Ok (Some {| res_bottomMapStyle := bottomMapStyle;
                      res_topMapStyle := topMapStyle;
                      res_editable := editable;
                      res_threeDBuildingColor := threeDBuildingColor |})
      end
  end.

(** [{...state, ...getMapStyles(...)}]: the keys of the returned object
    overwrite those of the state; an empty object overwrites nothing. *)
Definition spreadMapStyles (s : MapStyleState) (r : option MapStyles) : MapStyleState :=
  match r with
  | None => s
  | Some r => {|
      styleType := styleType s;
      visibleLayerGroups := visibleLayerGroups s;
      topLayerGroups := topLayerGroups s;
      mapStyles := mapStyles s;
      mapboxApiAccessToken := mapboxApiAccessToken s;
      inputStyle := inputStyle s;
      threeDBuildingColor := res_threeDBuildingColor r;
      bottomMapStyle := Some (res_bottomMapStyle r);
      topMapStyle := res_topMapStyle r;
      editable := Some (res_editable r);
      initialState := initialState s
    |}
  end.

(** [{...state, ...payload}] *)
Definition spreadConfig (s : MapStyleState) (payload : MapStyleConfig) : MapStyleState := {|
  styleType := default (styleType s) (cfg_styleType payload);
  visibleLayerGroups := default (visibleLayerGroups s) (cfg_visibleLayerGroups payload);
  topLayerGroups := default (topLayerGroups s) (cfg_topLayerGroups payload);
  mapStyles := default (mapStyles s) (cfg_mapStyles payload);
  mapboxApiAccessToken :=
    default (mapboxApiAccessToken s) (cfg_mapboxApiAccessToken payload);
  inputStyle := default (inputStyle s) (cfg_inputStyle payload);
  threeDBuildingColor :=
    default (threeDBuildingColor s) (cfg_threeDBuildingColor payload);
  bottomMapStyle := default (bottomMapStyle s) (cfg_bottomMapStyle payload);
  topMapStyle := default (topMapStyle s) (cfg_topMapStyle payload);
  editable := default (editable s) (cfg_editable payload);
  initialState := default (initialState s) (cfg_initialState payload)
|}.

(** Object spreads that replace some keys of the state. *)
Definition set_mapStyles (s : MapStyleState) (m : gmap string MapStyle) : MapStyleState := {|
  styleType := styleType s;
  visibleLayerGroups := visibleLayerGroups s;
  topLayerGroups := topLayerGroups s;
  mapStyles := m;
  mapboxApiAccessToken := mapboxApiAccessToken s;
  inputStyle := inputStyle s;
  threeDBuildingColor := threeDBuildingColor s;
  bottomMapStyle := bottomMapStyle s;
  topMapStyle := topMapStyle s;
  editable := editable s;
  initialState := initialState s
|}.

Definition set_inputStyle (s : MapStyleState) (i : MapStyle) : MapStyleState := {|
  styleType := styleType s;
  visibleLayerGroups := visibleLayerGroups s;
  topLayerGroups := topLayerGroups s;
  mapStyles := mapStyles s;
  mapboxApiAccessToken := mapboxApiAccessToken s;
  inputStyle := i;
  threeDBuildingColor := threeDBuildingColor s;
  bottomMapStyle := bottomMapStyle s;
  topMapStyle := topMapStyle s;
  editable := editable s;
  initialState := initialState s
|}.

Definition set_styleType_visibleLayerGroups (s : MapStyleState)
    (t : string) (v : VisibilityMap) : MapStyleState := {|
  styleType := t;
  visibleLayerGroups := v;
  topLayerGroups := topLayerGroups s;
  mapStyles := mapStyles s;
  mapboxApiAccessToken := mapboxApiAccessToken s;
  inputStyle := inputStyle s;
  threeDBuildingColor := threeDBuildingColor s;
  bottomMapStyle := bottomMapStyle s;
  topMapStyle := topMapStyle s;
  editable := editable s;
  initialState := initialState s
|}.

(** ** Updaters *)

(** [(action.payload || {}).mapboxApiAccessToken] *)
Definition initMapStyleUpdater (s : MapStyleState)
    (payload : option (option string)) : MapStyleState := {|
  styleType := styleType s;
  visibleLayerGroups := visibleLayerGroups s;
  topLayerGroups := topLayerGroups s;
  mapStyles := mapStyles s;
  mapboxApiAccessToken := default None payload;
  inputStyle := inputStyle s;
  threeDBuildingColor := threeDBuildingColor s;
  bottomMapStyle := bottomMapStyle s;
  topMapStyle := topMapStyle s;
  editable := editable s;
  initialState := initialState s
|}.

Definition mapConfigChangeUpdater (s : MapStyleState)
    (payload : MapStyleConfig) : Result MapStyleState :=
  let merged := spreadConfig s payload in
  let* derived := getMapStyles merged in
  Ok (spreadMapStyles merged derived).

Definition mapStyleChangeUpdater (s : MapStyleState)
    (styleType : string) : Result MapStyleState :=
  match mapStyles s !! styleType with
  | None =>
      (* we might not have received the style yet *)
      Ok s
  | Some mapStyle =>
      let defaultLGVisibility := getDefaultLayerGroupVisibility mapStyle in
      let visibleLayerGroups :=
        mergeLayerGroupVisibility defaultLGVisibility (visibleLayerGroups s) in
      let next := set_styleType_visibleLayerGroups s styleType visibleLayerGroups in
      let* derived := getMapStyles next in
      Ok (spreadMapStyles next derived)
  end.

Definition loadMapStylesUpdater (s : MapStyleState)
    (newStyles : gmap string MapStyle) : Result MapStyleState :=
  let newState := set_mapStyles s (newStyles ∪ mapStyles s) in
  match newStyles !! styleType s with
  | Some _ => mapStyleChangeUpdater newState (styleType s)
  | None => Ok newState
  end.

Definition loadMapStyleErrUpdater (s : MapStyleState) : MapStyleState := s.

(** The requests of the [Task.all] batch: one per value of
    [mapStyle.mapStyles]. *)
Definition loadMapStyleTasks (s : MapStyleState)
    (styles : gmap string MapStyle) : list LoadMapStyleTask :=
  map (fun entry =>
         {| task_id := ms_id entry;
            task_url :=
              getStyleDownloadUrl (ms_url entry)
                (js_or (ms_accessToken entry) (mapboxApiAccessToken s)) |})
      (Object_values styles).

(** The updater returns the next state, with the batch of requests when
    [withTask] attaches one. *)
Definition receiveMapConfigUpdater (s : MapStyleState)
    (mapStyle : option MapStyleConfig)
    : Result (MapStyleState * option (list LoadMapStyleTask)) :=
  match mapStyle with
  | None => Ok (s, None)
  | Some mapStyle =>
      let tasks := loadMapStyleTasks s <$> cfg_mapStyles mapStyle in
      let* newState := mapConfigChangeUpdater s mapStyle in
      Ok (newState, tasks)
  end.

(** An object with none of the keys of a style entry. *)
Definition emptyMapStyle : MapStyle := {|
  ms_id := None;
  ms_label := None;
  ms_url := None;
  ms_icon := None;
  ms_style := None;
  ms_layerGroups := None;
  ms_accessToken := None;
  ms_error := None;
  ms_isValid := None;
  ms_custom := None
|}.

Definition set_style_layerGroups (m : MapStyle)
    (lg : list LayerGroup) (style : StyleDocument) : MapStyle := {|
  ms_id := ms_id m;
  ms_label := ms_label m;
  ms_url := ms_url m;
  ms_icon := ms_icon m;
  ms_style := Some style;
  ms_layerGroups := Some lg;
  ms_accessToken := ms_accessToken m;
  ms_error := ms_error m;
  ms_isValid := ms_isValid m;
  ms_custom := ms_custom m
|}.

(** The success branch of the batch of [receiveMapConfigUpdater]: the reduce
    over the downloaded [{id, style}] results that builds the payload of
    [loadMapStyles]. *)
Fixpoint loadedMapStyles (saved : gmap string MapStyle)
    (accu : gmap string MapStyle) (results : list (string * StyleDocument))
    : Result (gmap string MapStyle) :=
  match results with
  | [] => Ok accu
  | (id, style) :: rest =>
      let* layerGroups := getLayerGroupsFromStyle style in
      loadedMapStyles saved
        (<[id := set_style_layerGroups (default emptyMapStyle (saved !! id))
                   layerGroups style]> accu)
        rest
  end.

Definition loadCustomMapStyleUpdater (s : MapStyleState)
    (icon : option string) (style : option StyleDocument)
    (error : option ErrorField) : Result MapStyleState :=
  let input := inputStyle s in
  let* withStyle :=
    match style with
    | Some style =>
        let* layerGroups := getLayerGroupsFromStyle style in
        Ok {| ms_id := Some (if truthy_ostring (doc_id style)
                             then property_key (doc_id style)
                             else generateHashId);
              ms_label := doc_name style;
              ms_url := ms_url input;
              ms_icon := ms_icon input;
              ms_style := Some (json_copy style);
              ms_layerGroups := Some layerGroups;
              ms_accessToken := ms_accessToken input;
              ms_error := ms_error input;
              ms_isValid := ms_isValid input;
              ms_custom := ms_custom input |}
    | None => Ok input
    end in
  Ok (set_inputStyle s {|
        ms_id := ms_id withStyle;
        ms_label := ms_label withStyle;
        ms_url := ms_url withStyle;
        ms_icon := if truthy_ostring icon then icon else ms_icon withStyle;
        ms_style := ms_style withStyle;
        ms_layerGroups := ms_layerGroups withStyle;
        ms_accessToken := ms_accessToken withStyle;
        ms_error := match error with Some e => Some e | None => ms_error withStyle end;
        ms_isValid := ms_isValid withStyle;
        ms_custom := ms_custom withStyle |}).

Definition inputMapStyleUpdater (s : MapStyleState)
    (input : MapStyle) : MapStyleState :=
  set_inputStyle s {|
    ms_id := ms_id input;
    ms_label := ms_label input;
    ms_url := ms_url input;
    ms_icon := ms_icon input;
    ms_style := ms_style input;
    ms_layerGroups := ms_layerGroups input;
    ms_accessToken := ms_accessToken input;
    ms_error := ms_error input;
    ms_isValid := Some (isValidStyleUrl (ms_url input));
    ms_custom := ms_custom input |}.

Definition addCustomMapStyleUpdater (s : MapStyleState) : Result MapStyleState :=
  let styleId := property_key (ms_id (inputStyle s)) in
  let newState :=
    set_inputStyle
      (set_mapStyles s (<[styleId := inputStyle s]> (mapStyles s)))
      (* set to default *)
      getInitialInputStyle in
  (* set new style *)
  mapStyleChangeUpdater newState styleId.

(** [{...INITIAL_MAP_STYLE, mapboxApiAccessToken, ...state.initialState,
      mapStyles: state.mapStyles, initialState: state.initialState}] *)
Definition resetMapConfigMapStyleUpdater (s : MapStyleState) : Result MapStyleState :=
  let withToken := {|
    styleType := styleType INITIAL_MAP_STYLE;
    visibleLayerGroups := visibleLayerGroups INITIAL_MAP_STYLE;
    topLayerGroups := topLayerGroups INITIAL_MAP_STYLE;
    mapStyles := mapStyles INITIAL_MAP_STYLE;
    mapboxApiAccessToken := mapboxApiAccessToken s;
    inputStyle := inputStyle INITIAL_MAP_STYLE;
    threeDBuildingColor := threeDBuildingColor INITIAL_MAP_STYLE;
    bottomMapStyle := bottomMapStyle INITIAL_MAP_STYLE;
    topMapStyle := topMapStyle INITIAL_MAP_STYLE;
    editable := editable INITIAL_MAP_STYLE;
    initialState := initialState INITIAL_MAP_STYLE
  |} in
  let spread := spreadConfig withToken (default noKeys (initialState s)) in
  let emptyConfig := {|
    styleType := styleType spread;
    visibleLayerGroups := visibleLayerGroups spread;
    topLayerGroups := topLayerGroups spread;
    mapStyles := mapStyles s;
    mapboxApiAccessToken := mapboxApiAccessToken spread;
    inputStyle := inputStyle spread;
    threeDBuildingColor := threeDBuildingColor spread;
    bottomMapStyle := bottomMapStyle spread;
    topMapStyle := topMapStyle spread;
    editable := editable spread;
    initialState := initialState s
  |} in
  mapStyleChangeUpdater emptyConfig (styleType emptyConfig).


(** ** Vocabulary of the properties *)

(** The style document of the entry [id] of the registry, when the entry is
    there and its document is downloaded. *)
Definition resolvedStyle (s : MapStyleState) (id : string) : option StyleDocument :=
  mapStyles s !! id ≫= ms_style.

(** The derived fields hold what [getMapStyles] computes from the state's
    own canonical fields, and nothing when it computes nothing. *)
Definition upToDate (s : MapStyleState) : Prop :=
  match getMapStyles s with
  | Ok (Some r) =>
      bottomMapStyle s = Some (res_bottomMapStyle r) ∧
      topMapStyle s = res_topMapStyle r ∧
      threeDBuildingColor s = res_threeDBuildingColor r
  | Ok None => bottomMapStyle s = None ∧ topMapStyle s = None
  | Throw _ => False
  end.

(** The derived fields of [s] hold what [getMapStyles] computes from [s] when
    the active style is loaded, and are those of [prev] when it is not. *)
Definition derivedFrom (prev s : MapStyleState) : Prop :=
  match getMapStyles s with
  | Ok (Some r) =>
      bottomMapStyle s = Some (res_bottomMapStyle r) ∧
      topMapStyle s = res_topMapStyle r ∧
      threeDBuildingColor s = res_threeDBuildingColor r
  | Ok None =>
      bottomMapStyle s = bottomMapStyle prev ∧
      topMapStyle s = topMapStyle prev ∧
      threeDBuildingColor s = threeDBuildingColor prev
  | Throw _ => False
  end.

(** Whenever the active style is loaded, the derived fields hold what
    [getMapStyles] computes from the state's own canonical fields. *)
Definition upToDateWhenLoaded (s : MapStyleState) : Prop :=
  match getMapStyles s with
  | Ok (Some r) =>
      bottomMapStyle s = Some (res_bottomMapStyle r) ∧
      topMapStyle s = res_topMapStyle r ∧
      threeDBuildingColor s = res_threeDBuildingColor r
  | Ok None => True
  | Throw _ => False
  end.

(** [s'] is the state an updater returns on [s]. *)
Inductive updated (s : MapStyleState) : MapStyleState -> Prop :=
| updated_init payload :
    updated s (initMapStyleUpdater s payload)
| updated_mapConfigChange payload s' :
    mapConfigChangeUpdater s payload = Ok s' -> updated s s'
| updated_mapStyleChange newId s' :
    mapStyleChangeUpdater s newId = Ok s' -> updated s s'
| updated_loadMapStyles newStyles s' :
    loadMapStylesUpdater s newStyles = Ok s' -> updated s s'
| updated_loadMapStyleErr :
    updated s (loadMapStyleErrUpdater s)
| updated_receiveMapConfig cfg s' tasks :
    receiveMapConfigUpdater s cfg = Ok (s', tasks) -> updated s s'
| updated_resetMapConfigMapStyle s' :
    resetMapConfigMapStyleUpdater s = Ok s' -> updated s s'
| updated_loadCustomMapStyle icon style error s' :
    loadCustomMapStyleUpdater s icon style error = Ok s' -> updated s s'
| updated_inputMapStyle input :
    updated s (inputMapStyleUpdater s input)
| updated_addCustomMapStyle s' :
    addCustomMapStyleUpdater s = Ok s' -> updated s s'.

(** The Style Editor applied for the bottom map: the document itself when
    the visibility map is empty, [editBottomMapStyle] otherwise. *)
Definition bottomEdit (id : string) (mapStyle : MapStyle) (style : StyleDocument)
    (v : VisibilityMap) : ImmutableDoc :=
  if decide (v = ∅) then fromJS style else editBottomMapStyle id mapStyle v.

(** The request of the download of one style entry. *)
Definition taskOf (s : MapStyleState) (entry : MapStyle) : LoadMapStyleTask := {|
  task_id := ms_id entry;
  task_url :=
    getStyleDownloadUrl (ms_url entry)
      (if truthy_ostring (ms_accessToken entry)
       then ms_accessToken entry
       else mapboxApiAccessToken s)
|}.

End Updaters.

(** ** A concrete environment

    The imported modules are not part of the reducer; to evaluate the
    updaters on examples they are given the behaviour the specification
    describes for them. *)
Module Model.

Fixpoint contains (sub s : string) : bool :=
  String.prefix sub s ||
  match s with
  | EmptyString => false
  | String _ s' => contains sub s'
  end.

(** Modelled from the spec: [DEFAULT_LAYER_GROUPS] of
    [constants/default-settings], which is not under [src/].  The
    enumerated groups are those the specification names; the predicate of a
    group is taken to hold of the layers whose id mentions the group. *)
Definition layerGroup (name : string) : LayerGroup := {|
  slug := name;
  filter_ := fun l => contains name (layer_id l);
  defaultVisibility := true
|}.

Definition layerGroups : list LayerGroup :=
  map layerGroup ["label"; "road"; "building"; "water"; "land"; "border"; "background"].

(** Modelled from the spec: [getDefaultLayerGroupVisibility] of
    [utils/map-style-utils/mapbox-gl-style-editor], which is not under
    [src/]: the default visibility of each layer group of a style entry. *)
Definition defaultLayerGroupVisibility (m : MapStyle) : VisibilityMap :=
  list_to_map (map (fun lg => (slug lg, defaultVisibility lg))
                   (default [] (ms_layerGroups m))).

(** Modelled from the spec: [mergeLayerGroupVisibility] of the same module:
    the default visibility with the previously customized groups carried
    forward. *)
Definition mergeVisibility (defaultLG currentLG : VisibilityMap) : VisibilityMap :=
  map_imap (fun key d => Some (default d (currentLG !! key))) defaultLG.

Definition set_visibility (l : Layer) (visible : bool) : Layer := {|
  layer_id := layer_id l;
  layer_paint := layer_paint l;
  layer_layout :=
    Some (<["visibility" := if visible then "visible" else "none"]>
            (default ∅ (layer_layout l)))
|}.

(** Modelled from the spec: the Style Editor ([editBottomMapStyle] and
    [editTopMapStyle] of the same module): every layer that belongs to a
    known group gets its visibility set per the visibility map, the other
    layers are untouched, the order of the layers is kept; missing [layers]
    are zero matches. *)
Definition edit (visible : string -> bool) (m : MapStyle) : ImmutableDoc :=
  let doc := default {| doc_id := None; doc_name := None; layers := None |} (ms_style m) in
  fromJS {|
    doc_id := doc_id doc;
    doc_name := doc_name doc;
    layers :=
      map (fun l =>
             match List.find (fun lg => filter_ lg l) layerGroups with
             | Some lg => set_visibility l (visible (slug lg))
             | None => l
             end) <$> layers doc
  |}.

Definition editBottom (id : string) (m : MapStyle) (v : VisibilityMap) : ImmutableDoc :=
  edit (fun g => truthy (v !! g)) m.

Definition editTop (id : string) (m : MapStyle) (v : MaskedMap) : ImmutableDoc :=
  edit (fun g => truthy (mjoin (v !! g))) m.

(** Modelled from the spec: [isValidStyleUrl] and [getStyleDownloadUrl] of
    the same module.  The specification fixes no URL format: a url is taken
    as valid when it has the form of the example of the updater's
    documentation, and the download url carries the access token as a query
    parameter. *)
Definition validStyleUrl (url : option string) : bool :=
  match url with
  | Some u => String.prefix "mapbox://styles/" u
  | None => false
  end.

Definition styleDownloadUrl (url token : option string) : string :=
  String.append (default "" url)
    match token with
    | Some t => String.append "?access_token=" t
    | None => ""
    end.

(** Modelled from the spec: the colour arithmetic of d3-color and
    [hexToRgb] of [utils/color-utils].  Channels are rationals; brightening
    and darkening shift every channel by the delta on the 0-255 scale and
    clamp. *)
Definition hex_digit (c : Ascii.ascii) : Z :=
  let n := Z.of_N (Ascii.N_of_ascii c) in
  if (48 <=? n)%Z && (n <=? 57)%Z then (n - 48)%Z
  else if (65 <=? n)%Z && (n <=? 70)%Z then (n - 55)%Z
  else if (97 <=? n)%Z && (n <=? 102)%Z then (n - 87)%Z
  else 0%Z.

Definition parse_hex (s : string) : Rgb Q :=
  match s with
  | String _ (String r1 (String r0 (String g1 (String g0 (String b1 (String b0 _)))))) =>
      {| rgb_r := inject_Z (16 * hex_digit r1 + hex_digit r0);
         rgb_g := inject_Z (16 * hex_digit g1 + hex_digit g0);
         rgb_b := inject_Z (16 * hex_digit b1 + hex_digit b0) |}
  | _ => {| rgb_r := 0%Q; rgb_g := 0%Q; rgb_b := 0%Q |}
  end.

Definition clamp (q : Q) : Q :=
  if Qle_bool q 0 then 0%Q else if Qle_bool 255 q then 255%Q else q.

Definition shift (sign : Q) (c : Rgb Q) (k : list Q) : Rgb Q :=
  let delta := (sign * default 0%Q (head k) * 255)%Q in
  {| rgb_r := clamp (Qred (rgb_r c + delta));
     rgb_g := clamp (Qred (rgb_g c + delta));
     rgb_b := clamp (Qred (rgb_b c + delta)) |}.

Definition entry (id url : string) (style : option StyleDocument) : MapStyle := {|
  ms_id := Some id;
  ms_label := Some id;
  ms_url := Some url;
  ms_icon := None;
  ms_style := style;
  ms_layerGroups := Some layerGroups;
  ms_accessToken := None;
  ms_error := None;
  ms_isValid := None;
  ms_custom := None
|}.

(** Modelled from the spec: [DEFAULT_MAP_STYLES] of
    [constants/default-settings]: the preset entries, known by url and not
    yet downloaded. *)
Definition defaultMapStyles : list MapStyle :=
  [entry "dark" "mapbox://styles/preset/dark" None;
   entry "light" "mapbox://styles/preset/light" None].

#[export] Instance env : Env := {|
  num := Q;
  getDefaultLayerGroupVisibility := defaultLayerGroupVisibility;
  mergeLayerGroupVisibility := mergeVisibility;
  editTopMapStyle := editTop;
  editBottomMapStyle := editBottom;
  isValidStyleUrl := validStyleUrl;
  getStyleDownloadUrl := styleDownloadUrl;
  DEFAULT_MAP_STYLES := defaultMapStyles;
  DEFAULT_LAYER_GROUPS := layerGroups;
  generateHashId := "hash_id_0";
  hexToRgb := fun s => let c := parse_hex s in [rgb_r c; rgb_g c; rgb_b c];
  rgb := parse_hex;
  brighter := shift 1;
  darker := shift (-1)
|}.

(** *** Example data *)

Definition layer (id : string) (paint : option (gmap string string)) : Layer :=
  {| layer_id := id; layer_paint := paint; layer_layout := None |}.

Definition lightDoc : StyleDocument := {|
  doc_id := Some "light";
  doc_name := Some "Light";
  layers := Some [layer "background" (Some {["background-color" := "#F0F0F0"]});
                  layer "road-primary" None;
                  layer "place-label" None]
|}.

Definition darkDoc : StyleDocument := {|
  doc_id := Some "dark";
  doc_name := Some "Dark";
  layers := Some [layer "background" (Some {["background-color" := "#101010"]});
                  layer "road-primary" None;
                  layer "place-label" None]
|}.

(** A document without a [layers] key. *)
Definition noLayersDoc : StyleDocument := {|
  doc_id := Some "custom";
  doc_name := Some "Custom";
  layers := None
|}.

(** The default state once the access token is set and the light style is
    downloaded; the dark style is still known by url only. *)
Definition lightLoaded : MapStyleState := {|
  styleType := "light";
  visibleLayerGroups := ∅;
  topLayerGroups := ∅;
  mapStyles :=
    {[ "light" := entry "light" "mapbox://styles/preset/light" (Some lightDoc);
       "dark" := entry "dark" "mapbox://styles/preset/dark" None ]};
  mapboxApiAccessToken := Some "pk.token";
  inputStyle := getInitialInputStyle;
  threeDBuildingColor := [189%Q; 189%Q; 189%Q];
  bottomMapStyle := Some (fromJS lightDoc);
  topMapStyle := None;
  editable := Some 0;
  initialState := None
|}.

(** The bottom map hides the labels and the top map asks for them. *)
Definition labelsMasked : MapStyleState := {|
  styleType := "light";
  visibleLayerGroups := {[ "label" := false; "road" := true ]};
  topLayerGroups := {[ "label" := true ]};
  mapStyles := mapStyles lightLoaded;
  mapboxApiAccessToken := Some "pk.token";
  inputStyle := getInitialInputStyle;
  threeDBuildingColor := [189%Q; 189%Q; 189%Q];
  bottomMapStyle := None;
  topMapStyle := None;
  editable := None;
  initialState := None
|}.

(** The dark style is selected, not downloaded yet, and the labels were
    switched off by the user. *)
Definition darkPending : MapStyleState := {|
  styleType := "dark";
  visibleLayerGroups := {[ "label" := false ]};
  topLayerGroups := ∅;
  mapStyles := mapStyles lightLoaded;
  mapboxApiAccessToken := Some "pk.token";
  inputStyle := getInitialInputStyle;
  threeDBuildingColor := [189%Q; 189%Q; 189%Q];
  bottomMapStyle := None;
  topMapStyle := None;
  editable := None;
  initialState := None
|}.

Definition darkEntry : MapStyle :=
  entry "dark" "mapbox://styles/preset/dark" (Some darkDoc).

(** The payload [{styleType: 'dark'}]. *)
Definition selectDark : MapStyleConfig := {|
  cfg_styleType := Some "dark";
  cfg_visibleLayerGroups := None;
  cfg_topLayerGroups := None;
  cfg_mapStyles := None;
  cfg_mapboxApiAccessToken := None;
  cfg_inputStyle := None;
  cfg_threeDBuildingColor := None;
  cfg_bottomMapStyle := None;
  cfg_topMapStyle := None;
  cfg_editable := None;
  cfg_initialState := None
|}.

(** A saved configuration whose custom style carries its document and its
    own access token. *)
Definition customEntry : MapStyle := {|
  ms_id := Some "custom_style_1";
  ms_label := Some "Custom";
  ms_url := Some "mapbox://styles/user/custom";
  ms_icon := None;
  ms_style := Some darkDoc;
  ms_layerGroups := Some layerGroups;
  ms_accessToken := Some "pk.own";
  ms_error := Some ErrFalse;
  ms_isValid := Some true;
  ms_custom := Some true
|}.

Definition savedConfig : MapStyleConfig := {|
  cfg_styleType := Some "custom_style_1";
  cfg_visibleLayerGroups := None;
  cfg_topLayerGroups := None;
  cfg_mapStyles := Some {[ "custom_style_1" := customEntry ]};
  cfg_mapboxApiAccessToken := None;
  cfg_inputStyle := None;
  cfg_threeDBuildingColor := None;
  cfg_bottomMapStyle := None;
  cfg_topMapStyle := None;
  cfg_editable := None;
  cfg_initialState := None
|}.

(** The custom style is staged in [inputStyle]. *)
Definition customStaged : MapStyleState := {|
  styleType := "light";
  visibleLayerGroups := ∅;
  topLayerGroups := ∅;
  mapStyles := mapStyles lightLoaded;
  mapboxApiAccessToken := Some "pk.token";
  inputStyle := customEntry;
  threeDBuildingColor := [189%Q; 189%Q; 189%Q];
  bottomMapStyle := Some (fromJS lightDoc);
  topMapStyle := None;
  editable := Some 0;
  initialState := None
|}.

(** The visibility the Style Editor gave each layer. *)
Definition visibilities (d : ImmutableDoc) : list (string * option string) :=
  map (fun l => (layer_id l, layer_layout l ≫= (.!! "visibility")))
      (default [] (layers (toJS d))).

(** The documents downloaded for the saved configuration. *)
Definition downloads : list (string * StyleDocument) :=
  [("custom_style_1", darkDoc)].

(** A style registered a second time, unchanged. *)
Definition darkAgain : gmap string MapStyle :=
  {[ "dark" := entry "dark" "mapbox://styles/preset/dark" None ]}.

(** A saved configuration with an empty [mapStyles]. *)
Definition savedEmpty : MapStyleConfig := {|
  cfg_styleType := Some "light";
  cfg_visibleLayerGroups := None;
  cfg_topLayerGroups := None;
  cfg_mapStyles := Some ∅;
  cfg_mapboxApiAccessToken := None;
  cfg_inputStyle := None;
  cfg_threeDBuildingColor := None;
  cfg_bottomMapStyle := None;
  cfg_topMapStyle := None;
  cfg_editable := None;
  cfg_initialState := None
|}.


(** Modelled from the spec: what the output of the Style Editor shows.  A
    layer belongs to the first known group whose predicate holds of it, and
    the group [g] appears visible in a document when one of its layers is
    visible there. *)
Definition group_of (l : Layer) : option string :=
  slug <$> List.find (fun lg => filter_ lg l) layerGroups.

Definition shows (g : string) (d : ImmutableDoc) : Prop :=
  ∃ l, l ∈ default [] (layers (toJS d)) ∧
       group_of l = Some g ∧
       layer_layout l ≫= (.!! "visibility") = Some "visible".

(** The colour arithmetic of d3-color as the library defines it:
    [brighter(k)] multiplies every channel by [(1/0.7)^k] and [darker(k)] by
    [0.7^k], and neither rounds nor clamps.  [up] and [down] stand for the
    two factors at [k = 0.2]; the other imports are those of [env]. *)
Definition scale (k : Q) (c : Rgb Q) : Rgb Q := {|
  rgb_r := (rgb_r c * k)%Q;
  rgb_g := (rgb_g c * k)%Q;
  rgb_b := (rgb_b c * k)%Q
|}.

Definition d3color (up down : Q) : Env := {|
  num := Q;
  getDefaultLayerGroupVisibility := defaultLayerGroupVisibility;
  mergeLayerGroupVisibility := mergeVisibility;
  editTopMapStyle := editTop;
  editBottomMapStyle := editBottom;
  isValidStyleUrl := validStyleUrl;
  getStyleDownloadUrl := styleDownloadUrl;
  DEFAULT_MAP_STYLES := defaultMapStyles;
  DEFAULT_LAYER_GROUPS := layerGroups;
  generateHashId := "hash_id_0";
  hexToRgb := fun s => let c := parse_hex s in [rgb_r c; rgb_g c; rgb_b c];
  rgb := parse_hex;
  brighter := fun c _ => scale up c;
  darker := fun c _ => scale down c
|}.

(** A dark style on a white background. *)
Definition whiteDark : MapStyle :=
  entry "dark" "mapbox://styles/preset/dark"
    (Some {| doc_id := Some "dark";
             doc_name := Some "Dark";
             layers := Some [layer "background"
                               (Some {["background-color" := "#ffffff"]})] |}).

End Model.

(** * Properties *)

(** ** The regular expression *)

Lemma append_cons (a : Ascii.ascii) (p post : string) :
  String.append (String a p) post = String a (String.append p post).
Proof. reflexivity. Qed.

Lemma append_nil (post : string) : String.append "" post = post.
Proof. reflexivity. Qed.

Lemma prefix_append (p s : string) :
  String.prefix p s = true ↔ ∃ post, s = String.append p post.
Proof.
  revert s. induction p as [|a p IH]; intros s.
  - split; [intros _; by exists s | by destruct s].
  - destruct s as [|b s]; simpl.
    + split; [done | intros [post H]; rewrite append_cons in H; discriminate].
    + destruct (Ascii.ascii_dec a b) as [->|Hne].
      * rewrite IH. split; intros [post H]; exists post;
          rewrite append_cons in *; congruence.
      * split; [done | intros [post H]; rewrite append_cons in H; congruence].
Qed.

Lemma has_substring_cons (sub : string) (a : Ascii.ascii) (s : string) :
  has_substring sub s → has_substring sub (String a s).
Proof.
  intros (pre & post & ->). exists (String a pre), post. by rewrite append_cons.
Qed.

Lemma has_substring_inv (sub : string) (a : Ascii.ascii) (s : string) :
  has_substring sub (String a s) →
  String.prefix sub (String a s) = true ∨ has_substring sub s.
Proof.
  intros (pre & post & H). destruct pre as [|b pre].
  - left. apply prefix_append. exists post. by rewrite append_nil in H.
  - right. exists pre, post. rewrite append_cons in H. congruence.
Qed.

Lemma has_substring_nil (sub : string) :
  has_substring sub "" → String.prefix sub "" = true.
Proof.
  intros (pre & post & H). apply prefix_append. exists post.
  destruct pre; [by rewrite append_nil in H | by rewrite append_cons in H].
Qed.

(** The lookahead scan succeeds exactly on the identifiers in which ["dark"]
    or ["night"] occurs. *)
Lemma match_dark_night_spec (id : string) :
  match_dark_night id = true ↔ has_substring "dark" id ∨ has_substring "night" id.
Proof.
  split.
  - induction id as [|a id IH].
    + cbn. discriminate.
    + intros H. change (match_dark_night (String a id))
        with (lookahead_dark_night (String a id) || match_dark_night id) in H.
      apply orb_prop in H as [H|H].
      * unfold lookahead_dark_night in H. apply orb_prop in H as [H|H];
          apply prefix_append in H as [post H]; [left|right]; by exists "", post.
      * destruct (IH H); [left|right]; by apply has_substring_cons.
  - induction id as [|a id IH].
    + intros [H|H]; apply has_substring_nil in H; discriminate.
    + intros H.
      change (match_dark_night (String a id))
        with (lookahead_dark_night (String a id) || match_dark_night id).
      apply orb_true_iff. unfold lookahead_dark_night. rewrite orb_true_iff.
      destruct H as [H|H]; apply has_substring_inv in H as [H|H]; auto.
Qed.

(** ** Keys and values of an object *)

Lemma Object_keys_length_0 {V} (m : gmap string V) :
  length (Object_keys m) = 0 ↔ m = ∅.
Proof.
  unfold Object_keys. rewrite length_fmap, length_zero_iff_nil.
  apply map_to_list_empty_iff.
Qed.

Lemma Object_keys_elem {V} (m : gmap string V) (k : string) :
  k ∈ Object_keys m ↔ is_Some (m !! k).
Proof.
  unfold Object_keys. rewrite list_elem_of_fmap. split.
  - intros ([k' v] & -> & H). apply elem_of_map_to_list in H. by exists v.
  - intros [v H]. exists (k, v). split; [done | by apply elem_of_map_to_list].
Qed.

Lemma Object_values_elem {V} (m : gmap string V) (v : V) :
  v ∈ Object_values m ↔ ∃ k, m !! k = Some v.
Proof.
  unfold Object_values. rewrite list_elem_of_fmap. split.
  - intros ([k v'] & -> & H). apply elem_of_map_to_list in H. by exists k.
  - intros [k H]. exists (k, v). split; [done | by apply elem_of_map_to_list].
Qed.

Lemma some_visible (m : VisibilityMap) :
  existsb (fun v => v) (Object_values m) = true ↔ ∃ g, m !! g = Some true.
Proof.
  rewrite existsb_exists. split.
  - intros (v & Hin & ->). apply list_elem_of_In, Object_values_elem in Hin. done.
  - intros [g H]. exists true. split; [|done].
    apply list_elem_of_In, Object_values_elem. by exists g.
Qed.

(** ** The masking reduce *)

Lemma topLayers_fold (T B : VisibilityMap) (keys : list string) (accu : MaskedMap) (g : string) :
  foldl (fun accu key => <[key := js_and (T !! key) (B !! key)]> accu) accu keys !! g
  = if decide (g ∈ keys) then Some (js_and (T !! g) (B !! g)) else accu !! g.
Proof.
  revert accu. induction keys as [|k keys IH]; intros accu; cbn [foldl].
  - rewrite decide_False; [done | apply not_elem_of_nil].
  - rewrite IH. destruct (decide (g ∈ keys)) as [Hin|Hnin].
    + rewrite decide_True; [done | by apply elem_of_cons; right].
    + destruct (decide (g = k)) as [->|Hne].
      * rewrite decide_True; [|by apply elem_of_cons; left].
        by rewrite lookup_insert_eq.
      * rewrite decide_False; [by rewrite lookup_insert_ne|].
        intros [?|?]%elem_of_cons; done.
Qed.

Lemma topLayers_lookup (T B : VisibilityMap) (g : string) :
  topLayers T B !! g =
  match T !! g with
  | Some _ => Some (js_and (T !! g) (B !! g))
  | None => None
  end.
Proof.
  unfold topLayers. rewrite topLayers_fold, lookup_empty.
  destruct (T !! g) eqn:HT.
  - rewrite decide_True; [done|]. apply Object_keys_elem. by rewrite HT.
  - rewrite decide_False; [done|].
    intros H%Object_keys_elem. rewrite HT in H. by destruct H.
Qed.

(** The value read at [topLayers[g]] is [topLayerGroups[g] &&
    visibleLayerGroups[g]], for every [g]. *)
Lemma topLayers_read (T B : VisibilityMap) (g : string) :
  mjoin (topLayers T B !! g) = js_and (T !! g) (B !! g).
Proof.
  rewrite topLayers_lookup. destruct (T !! g); done.
Qed.

Lemma topLayers_muted (T B : VisibilityMap) (g : string) :
  B !! g = Some false → truthy (mjoin (topLayers T B !! g)) = false.
Proof.
  intros HB. rewrite topLayers_read, HB. unfold js_and.
  destruct (truthy (T !! g)) eqn:HT; [done | exact HT].
Qed.

Section Properties.
Context {E : Env}.

Implicit Types (s : MapStyleState) (mapStyle : MapStyle) (style : StyleDocument).

(** ** [getMapStyles] *)

Lemma get3DBuildingColor_ok mapStyle style (id : string) :
  ms_style mapStyle = Some style →
  ms_id mapStyle = Some id →
  get3DBuildingColor mapStyle =
    Ok (let rgbObj := apply_operation (operation id) (rgb (buildingColor style)) [0.2%Q] in
        [rgb_r rgbObj; rgb_g rgbObj; rgb_b rgbObj]).
Proof.
  intros Hstyle Hid. unfold get3DBuildingColor. by rewrite Hstyle, Hid.
Qed.

(** [getMapStyles] reads the four canonical fields only. *)
Lemma getMapStyles_canonical s s' :
  styleType s' = styleType s →
  visibleLayerGroups s' = visibleLayerGroups s →
  topLayerGroups s' = topLayerGroups s →
  mapStyles s' = mapStyles s →
  getMapStyles s' = getMapStyles s.
Proof.
  intros H1 H2 H3 H4. unfold getMapStyles. by rewrite H1, H2, H3, H4.
Qed.

Lemma getMapStyles_spread s r :
  getMapStyles (spreadMapStyles s r) = getMapStyles s.
Proof.
  apply getMapStyles_canonical; by destruct r.
Qed.

Lemma getMapStyles_unresolved s :
  resolvedStyle s (styleType s) = None → getMapStyles s = Ok None.
Proof.
  unfold resolvedStyle, getMapStyles.
  destruct (mapStyles s !! styleType s) as [m|]; [|done].
  simpl. by intros ->.
Qed.

Lemma getMapStyles_resolved s mapStyle style (id : string) :
  mapStyles s !! styleType s = Some mapStyle →
  ms_style mapStyle = Some style →
  ms_id mapStyle = Some id →
  ∃ r, getMapStyles s = Ok (Some r) ∧
       res_bottomMapStyle r =
         bottomEdit (styleType s) mapStyle style (visibleLayerGroups s) ∧
       res_topMapStyle r =
         (if negb (Nat.eqb (length (Object_keys (visibleLayerGroups s))) 0) &&
             existsb (fun v => v) (Object_values (topLayerGroups s))
          then Some (editTopMapStyle (styleType s) mapStyle
                       (topLayers (topLayerGroups s) (visibleLayerGroups s)))
          else None).
Proof.
  intros Hm Hstyle Hid. unfold getMapStyles. rewrite Hm, Hstyle.
  rewrite (get3DBuildingColor_ok _ _ _ Hstyle Hid). cbn [bind].
  eexists. split; [reflexivity|]. cbn [res_bottomMapStyle res_topMapStyle].
  split; [|reflexivity]. unfold bottomEdit.
  destruct (decide (visibleLayerGroups s = ∅)) as [Hv|Hv].
  - apply Object_keys_length_0 in Hv. by rewrite Hv.
  - destruct (Nat.eqb_spec (length (Object_keys (visibleLayerGroups s))) 0) as [H0|H0];
      [|done]. by apply Object_keys_length_0 in H0.
Qed.

(** [getMapStyles] throws only when the active entry is downloaded and has
    no id. *)
Lemma getMapStyles_total s :
  (∀ mapStyle, mapStyles s !! styleType s = Some mapStyle →
               is_Some (ms_style mapStyle) → is_Some (ms_id mapStyle)) →
  ∃ r, getMapStyles s = Ok r.
Proof.
  intros Hid. destruct (resolvedStyle s (styleType s)) as [style|] eqn:Hres.
  - unfold resolvedStyle in Hres.
    destruct (mapStyles s !! styleType s) as [m|] eqn:Hm; [|done].
    simpl in Hres. destruct (Hid m eq_refl) as [id Hi]; [by rewrite Hres|].
    destruct (getMapStyles_resolved s m style id Hm Hres Hi) as (r & Hr & _).
    by exists (Some r).
  - exists None. by apply getMapStyles_unresolved.
Qed.

(** C7.  For every loaded style document [D] of the active style, when
    [visibleLayerGroups] is empty the bottom map style produced by
    [getMapStyles] is [Immutable.fromJS(D)]: read back with [toJS] it is [D]
    itself (equal up to deep equality).  The styles are produced as soon as
    the entry has an id. *)
Theorem bottom_style_identity_fast_path s mapStyle (D : StyleDocument) :
  mapStyles s !! styleType s = Some mapStyle →
  ms_style mapStyle = Some D →
  visibleLayerGroups s = ∅ →
  (∀ r, getMapStyles s = Ok (Some r) →
        res_bottomMapStyle r = fromJS D ∧ toJS (res_bottomMapStyle r) = D) ∧
  (is_Some (ms_id mapStyle) → ∃ r, getMapStyles s = Ok (Some r)).
Proof.
  intros Hm Hstyle Hv. split.
  - intros r. unfold getMapStyles. rewrite Hm, Hstyle.
    apply Object_keys_length_0 in Hv. rewrite Hv. cbn [Nat.eqb negb andb].
    destruct (get3DBuildingColor mapStyle) as [c|e]; [|done].
    cbn [bind]. by intros [= <-].
  - intros [id Hid].
    destruct (getMapStyles_resolved s mapStyle D id Hm Hstyle Hid) as (r & Hr & _).
    by exists r.
Qed.

(** C2 (amended).  For every state whose active style is loaded and whose
    [visibleLayerGroups] is non-empty: the visibility [getMapStyles] uses for
    the top map reads, at every group [g],
    [topLayerGroups[g] && visibleLayerGroups[g]]; whenever
    [visibleLayerGroups[g]] is [false], the group [g] is never visible in the
    produced [topMapStyle], whatever [topLayerGroups[g]] is; and the top
    style is produced exactly when some group of [topLayerGroups] is visible
    before masking.  [editTopMapStyle] is imported: it is taken to show a
    group only where the visibility map it receives marks the group
    visible. *)
Theorem top_visibility_masked (shows : string → ImmutableDoc → Prop)
    s mapStyle style (id : string) :
  (∀ (i : string) (m : MapStyle) (v : MaskedMap) (g : string),
     shows g (editTopMapStyle i m v) → truthy (mjoin (v !! g)) = true) →
  mapStyles s !! styleType s = Some mapStyle →
  ms_style mapStyle = Some style →
  ms_id mapStyle = Some id →
  visibleLayerGroups s ≠ ∅ →
  let T := topLayerGroups s in
  let B := visibleLayerGroups s in
  ∃ r, getMapStyles s = Ok (Some r) ∧
       (∀ g, mjoin (topLayers T B !! g) = js_and (T !! g) (B !! g)) ∧
       (∀ g top, B !! g = Some false →
                 res_topMapStyle r = Some top → ¬ shows g top) ∧
       ((∃ g, T !! g = Some true) →
        res_topMapStyle r = Some (editTopMapStyle (styleType s) mapStyle (topLayers T B))) ∧
       ((∀ g, T !! g ≠ Some true) → res_topMapStyle r = None).
Proof.
  intros Hedit Hm Hstyle Hid Hv T B. subst T B.
  destruct (getMapStyles_resolved s mapStyle style id Hm Hstyle Hid) as (r & Hr & _ & Ht).
  exists r. split; [done|].
  split; [intros g; apply topLayers_read|].
  assert (Hlen : Nat.eqb (length (Object_keys (visibleLayerGroups s))) 0 = false).
  { apply Nat.eqb_neq. by rewrite Object_keys_length_0. }
  rewrite Hlen in Ht. cbn [negb andb] in Ht. split; [|split].
  - intros g top Hhidden Htop Hshows. rewrite Ht in Htop.
    destruct (existsb (fun v => v) (Object_values (topLayerGroups s))); [|done].
    injection Htop as <-. apply Hedit in Hshows.
    by rewrite (topLayers_muted _ _ _ Hhidden) in Hshows.
  - intros Hsome. apply some_visible in Hsome. by rewrite Hsome in Ht.
  - intros Hnone. rewrite Ht.
    destruct (existsb (fun v => v) (Object_values (topLayerGroups s))) eqn:Hex; [|done].
    apply some_visible in Hex as [g Hg]. by destruct (Hnone g).
Qed.

(** ** Derived fields after an update *)

Lemma spreadMapStyles_derivedFrom prev merged r :
  getMapStyles merged = Ok r →
  bottomMapStyle merged = bottomMapStyle prev →
  topMapStyle merged = topMapStyle prev →
  threeDBuildingColor merged = threeDBuildingColor prev →
  derivedFrom prev (spreadMapStyles merged r).
Proof.
  intros Hr Hb Ht Hc. unfold derivedFrom. rewrite getMapStyles_spread, Hr.
  destruct r as [r|]; simpl; done.
Qed.

Lemma mapConfigChangeUpdater_derivedFrom s (payload : MapStyleConfig) s' :
  mapConfigChangeUpdater s payload = Ok s' → derivedFrom (spreadConfig s payload) s'.
Proof.
  unfold mapConfigChangeUpdater.
  destruct (getMapStyles (spreadConfig s payload)) as [r|e] eqn:Hr; [|done].
  cbn [bind]. intros [= <-]. by apply spreadMapStyles_derivedFrom.
Qed.

Lemma mapStyleChangeUpdater_derivedFrom s (newId : string) s' :
  is_Some (mapStyles s !! newId) →
  mapStyleChangeUpdater s newId = Ok s' → derivedFrom s s'.
Proof.
  intros [m Hm]. unfold mapStyleChangeUpdater. rewrite Hm.
  match goal with |- context [getMapStyles ?n] =>
    destruct (getMapStyles n) as [r|e] eqn:Hr; [|done] end.
  cbn [bind]. intros [= <-]. by apply spreadMapStyles_derivedFrom.
Qed.

Lemma mapStyleChangeUpdater_upToDate s (newId : string) s' :
  mapStyleChangeUpdater s newId = Ok s' →
  upToDateWhenLoaded s → upToDateWhenLoaded s'.
Proof.
  intros H Hs. destruct (mapStyles s !! newId) as [m|] eqn:Hm.
  - assert (Hd : derivedFrom s s').
    { apply (mapStyleChangeUpdater_derivedFrom s newId); [by rewrite Hm | done]. }
    unfold derivedFrom in Hd. unfold upToDateWhenLoaded.
    by destruct (getMapStyles s') as [[r|]|e].
  - unfold mapStyleChangeUpdater in H. rewrite Hm in H. by injection H as <-.
Qed.

Lemma derivedFrom_upToDate s s' :
  derivedFrom s s' → upToDateWhenLoaded s'.
Proof.
  unfold derivedFrom, upToDateWhenLoaded.
  by destruct (getMapStyles s') as [[r|]|e].
Qed.

(** Selecting again the style that is already selected. *)
Lemma mapStyleChangeUpdater_active s s' :
  mapStyleChangeUpdater s (styleType s) = Ok s' → upToDateWhenLoaded s'.
Proof.
  intros H. destruct (mapStyles s !! styleType s) as [m|] eqn:Hm.
  - apply (derivedFrom_upToDate s).
    apply (mapStyleChangeUpdater_derivedFrom s (styleType s)); [by rewrite Hm | done].
  - unfold mapStyleChangeUpdater in H. rewrite Hm in H. injection H as <-.
    unfold upToDateWhenLoaded. rewrite getMapStyles_unresolved; [done|].
    unfold resolvedStyle. by rewrite Hm.
Qed.

(** An update that changes neither what [getMapStyles] computes nor the
    derived fields keeps them in step. *)
Lemma upToDate_unchanged s s' :
  getMapStyles s' = getMapStyles s →
  bottomMapStyle s' = bottomMapStyle s →
  topMapStyle s' = topMapStyle s →
  threeDBuildingColor s' = threeDBuildingColor s →
  upToDateWhenLoaded s → upToDateWhenLoaded s'.
Proof.
  intros Hg Hb Ht Hc. unfold upToDateWhenLoaded. by rewrite Hg, Hb, Ht, Hc.
Qed.

Lemma getMapStyles_other_styles s (newStyles : gmap string MapStyle) :
  newStyles !! styleType s = None →
  getMapStyles (set_mapStyles s (newStyles ∪ mapStyles s)) = getMapStyles s.
Proof.
  intros Hnone. unfold getMapStyles.
  cbn [mapStyles styleType visibleLayerGroups topLayerGroups set_mapStyles].
  by rewrite lookup_union_r.
Qed.

(** C3 (amended).  Every updater keeps the derived fields in step with the
    canonical ones as far as the active style is loaded: if, before the
    update, [bottomMapStyle], [topMapStyle] and [threeDBuildingColor] equal
    the values [getMapStyles] recomputes whenever the active style entry is
    loaded, the same holds of the resulting state.  After
    [mapConfigChangeUpdater], and after [mapStyleChangeUpdater] to a
    registered style, they equal the recomputed values with no assumption on
    the previous state when the newly active entry is loaded.  When it is not
    loaded nothing is recomputed: [mapStyleChangeUpdater] leaves the three
    fields as they were before the update, and [mapConfigChangeUpdater]
    leaves each of them as the spread of the state and the payload gives it
    (the payload's value when the payload carries the key, the value before
    the update otherwise). *)
Theorem derived_fields_after_update s s' :
  updated s s' →
  (upToDateWhenLoaded s → upToDateWhenLoaded s') ∧
  (∀ payload, mapConfigChangeUpdater s payload = Ok s' →
     match getMapStyles s' with
     | Ok (Some r) =>
         bottomMapStyle s' = Some (res_bottomMapStyle r) ∧
         topMapStyle s' = res_topMapStyle r ∧
         threeDBuildingColor s' = res_threeDBuildingColor r
     | Ok None =>
         bottomMapStyle s' =
           default (bottomMapStyle s) (cfg_bottomMapStyle payload) ∧
         topMapStyle s' = default (topMapStyle s) (cfg_topMapStyle payload) ∧
         threeDBuildingColor s' =
           default (threeDBuildingColor s) (cfg_threeDBuildingColor payload)
     | Throw _ => False
     end) ∧
  (∀ newId, is_Some (mapStyles s !! newId) →
     mapStyleChangeUpdater s newId = Ok s' →
     match getMapStyles s' with
     | Ok (Some r) =>
         bottomMapStyle s' = Some (res_bottomMapStyle r) ∧
         topMapStyle s' = res_topMapStyle r ∧
         threeDBuildingColor s' = res_threeDBuildingColor r
     | Ok None =>
         bottomMapStyle s' = bottomMapStyle s ∧
         topMapStyle s' = topMapStyle s ∧
         threeDBuildingColor s' = threeDBuildingColor s
     | Throw _ => False
     end).
Proof.
  intros Hstep. split.
  - destruct Hstep as [payload | payload s' H | newId s' H | newStyles s' H |
                       | cfg s' tasks H | s' H | icon style error s' H | input | s' H].
    + by apply upToDate_unchanged.
    + intros _. by apply (derivedFrom_upToDate (spreadConfig s payload)), mapConfigChangeUpdater_derivedFrom.
    + by apply (mapStyleChangeUpdater_upToDate s newId).
    + unfold loadMapStylesUpdater in H.
      destruct (newStyles !! styleType s) as [entry|] eqn:Hentry.
      * intros _. apply derivedFrom_upToDate with (s := set_mapStyles s (newStyles ∪ mapStyles s)).
        apply (mapStyleChangeUpdater_derivedFrom _ (styleType s)); [|done].
        cbn [mapStyles set_mapStyles]. rewrite lookup_union_l'; by rewrite Hentry.
      * injection H as <-. apply upToDate_unchanged; [|done..].
        by apply getMapStyles_other_styles.
    + done.
    + destruct cfg as [cfg|]; cbn [receiveMapConfigUpdater] in H.
      * destruct (mapConfigChangeUpdater s cfg) as [s1|e] eqn:Hcfg; [|done].
        cbn [bind] in H. injection H as <- _. intros _.
        by apply (derivedFrom_upToDate (spreadConfig s cfg)), mapConfigChangeUpdater_derivedFrom.
      * by injection H as <- _.
    + intros _. exact (mapStyleChangeUpdater_active _ _ H).
    + unfold loadCustomMapStyleUpdater in H.
      match type of H with bind ?m _ = _ => destruct m as [i|e]; [|done] end.
      cbn [bind] in H. injection H as <-. by apply upToDate_unchanged.
    + by apply upToDate_unchanged.
    + intros _. unfold addCustomMapStyleUpdater in H.
      match type of H with mapStyleChangeUpdater ?n ?t = _ =>
        apply derivedFrom_upToDate with (s := n);
        apply (mapStyleChangeUpdater_derivedFrom n t); [|done]
      end.
      cbn [mapStyles set_inputStyle set_mapStyles]. by rewrite lookup_insert_eq.
  - split.
    + intros payload H. exact (mapConfigChangeUpdater_derivedFrom s payload s' H).
    + intros newId Hin H. exact (mapStyleChangeUpdater_derivedFrom s newId s' Hin H).
Qed.

(** ** [mapStyleChangeUpdater] *)

(** C1 (amended).  For every state [s] and style id [newId] whose entry is
    absent from [mapStyles], [mapStyleChangeUpdater] returns [s] completely
    unchanged; in particular [styleType] keeps its prior value. *)
Theorem mapStyleChange_absent_noop s (newId : string) :
  mapStyles s !! newId = None →
  mapStyleChangeUpdater s newId = Ok s.
Proof.
  intros Habsent. unfold mapStyleChangeUpdater. by rewrite Habsent.
Qed.

(** An entry that is registered but not downloaded is selected all the
    same: [styleType] and [visibleLayerGroups] change, the derived fields do
    not. *)
Lemma mapStyleChange_pending s (newId : string) mapStyle :
  mapStyles s !! newId = Some mapStyle →
  ms_style mapStyle = None →
  mapStyleChangeUpdater s newId =
    Ok (set_styleType_visibleLayerGroups s newId
          (mergeLayerGroupVisibility (getDefaultLayerGroupVisibility mapStyle)
             (visibleLayerGroups s))).
Proof.
  intros Hm Hstyle. unfold mapStyleChangeUpdater. rewrite Hm.
  rewrite getMapStyles_unresolved; [done|].
  unfold resolvedStyle. cbn [styleType mapStyles set_styleType_visibleLayerGroups].
  by rewrite Hm.
Qed.

(** A downloaded entry with an id is selected, with the default visibility
    of its layer groups merged with the current one. *)
Lemma mapStyleChange_loaded s (newId : string) mapStyle style (id : string) :
  mapStyles s !! newId = Some mapStyle →
  ms_style mapStyle = Some style →
  ms_id mapStyle = Some id →
  let v := mergeLayerGroupVisibility (getDefaultLayerGroupVisibility mapStyle)
             (visibleLayerGroups s) in
  ∃ s', mapStyleChangeUpdater s newId = Ok s' ∧
        styleType s' = newId ∧
        visibleLayerGroups s' = v ∧
        mapStyles s' = mapStyles s ∧
        inputStyle s' = inputStyle s ∧
        bottomMapStyle s' = Some (bottomEdit newId mapStyle style v).
Proof.
  intros Hm Hstyle Hid v. unfold mapStyleChangeUpdater. rewrite Hm. fold v.
  destruct (getMapStyles_resolved (set_styleType_visibleLayerGroups s newId v)
              mapStyle style id) as (r & Hr & Hb & _); [done..|].
  rewrite Hr. cbn [bind]. eexists. split; [reflexivity|].
  cbn. by rewrite Hb.
Qed.

(** ** [addCustomMapStyleUpdater] *)

(** C4.  For every state whose [inputStyle.id] is set to [id],
    [addCustomMapStyleUpdater] produces a state in which [mapStyles[id]] is
    the previous [inputStyle], [styleType] is [id], and [inputStyle] is the
    blank default: no id, no style, no url, [isValid: false],
    [custom: true]. *)
Theorem addCustomMapStyle_commits s (id : string) :
  ms_id (inputStyle s) = Some id →
  ∃ s', addCustomMapStyleUpdater s = Ok s' ∧
        mapStyles s' !! id = Some (inputStyle s) ∧
        styleType s' = id ∧
        inputStyle s' = getInitialInputStyle ∧
        ms_id (inputStyle s') = None ∧
        ms_style (inputStyle s') = None ∧
        ms_url (inputStyle s') = None ∧
        ms_isValid (inputStyle s') = Some false ∧
        ms_custom (inputStyle s') = Some true.
Proof.
  intros Hid. unfold addCustomMapStyleUpdater, mapStyleChangeUpdater.
  rewrite Hid. cbn [property_key mapStyles set_inputStyle set_mapStyles].
  rewrite lookup_insert_eq.
  match goal with |- context [getMapStyles ?n] =>
    destruct (getMapStyles_total n) as [r Hr] end.
  { cbn [styleType mapStyles set_styleType_visibleLayerGroups set_inputStyle set_mapStyles].
    rewrite lookup_insert_eq. intros m [= <-] _. by rewrite Hid. }
  rewrite Hr. cbn [bind]. eexists. split; [reflexivity|].
  destruct r as [r|]; cbn; by rewrite lookup_insert_eq.
Qed.

(** ** [loadMapStylesUpdater] *)

Lemma lookup_merged_styles (newStyles old : gmap string MapStyle) (k : string) :
  (newStyles ∪ old) !! k =
  match newStyles !! k with
  | Some e => Some e
  | None => old !! k
  end.
Proof.
  destruct (newStyles !! k) as [e|] eqn:Hk.
  - by apply lookup_union_Some_l.
  - by rewrite lookup_union_r.
Qed.

Lemma mapStyleChangeUpdater_mapStyles s (newId : string) s' :
  mapStyleChangeUpdater s newId = Ok s' → mapStyles s' = mapStyles s.
Proof.
  unfold mapStyleChangeUpdater. destruct (mapStyles s !! newId) as [m|].
  - match goal with |- context [getMapStyles ?n] =>
      destruct (getMapStyles n) as [r|e]; [|done] end.
    cbn [bind]. intros [= <-]. by destruct r.
  - by intros [= <-].
Qed.

(** C5 (amended).  [loadMapStylesUpdater] merges every entry of the payload
    into [mapStyles] and keeps the entries of the other ids; when
    [styleType] is not a key of the payload that is all it does, and when it
    is, the result is that of [mapStyleChangeUpdater] for [styleType] on the
    merged state.  When the payload entry of [styleType] carries a document
    (and an id), the resulting [bottomMapStyle] is the document edited as the
    bottom layer with the default visibility of the entry merged with the
    state's current [visibleLayerGroups]. *)
Theorem loadMapStyles_merges_and_restyles s (newStyles : gmap string MapStyle) :
  let merged := set_mapStyles s (newStyles ∪ mapStyles s) in
  (∀ s', loadMapStylesUpdater s newStyles = Ok s' →
         ∀ k, mapStyles s' !! k =
              match newStyles !! k with
              | Some e => Some e
              | None => mapStyles s !! k
              end) ∧
  (newStyles !! styleType s = None → loadMapStylesUpdater s newStyles = Ok merged) ∧
  (is_Some (newStyles !! styleType s) →
   loadMapStylesUpdater s newStyles = mapStyleChangeUpdater merged (styleType s)) ∧
  (∀ entry doc (id : string),
     newStyles !! styleType s = Some entry →
     ms_style entry = Some doc →
     ms_id entry = Some id →
     let v := mergeLayerGroupVisibility (getDefaultLayerGroupVisibility entry)
                (visibleLayerGroups s) in
     ∃ s', loadMapStylesUpdater s newStyles = Ok s' ∧
           styleType s' = styleType s ∧
           visibleLayerGroups s' = v ∧
           bottomMapStyle s' = Some (bottomEdit (styleType s) entry doc v)).
Proof.
  intros merged. unfold loadMapStylesUpdater. fold merged.
  split; [|split; [|split]].
  - intros s' H k. rewrite <- lookup_merged_styles.
    destruct (newStyles !! styleType s).
    + by rewrite (mapStyleChangeUpdater_mapStyles _ _ _ H).
    + by injection H as <-.
  - by intros ->.
  - by intros [e ->].
  - intros entry doc id Hentry Hdoc Hid. rewrite Hentry.
    assert (Hm : mapStyles merged !! styleType s = Some entry).
    { cbn [mapStyles merged set_mapStyles]. by rewrite lookup_merged_styles, Hentry. }
    pose proof (mapStyleChange_loaded merged (styleType s) entry doc id Hm Hdoc Hid) as H.
    cbv zeta in H. destruct H as (s' & Hs' & Ht & Hv & _ & _ & Hb).
    by exists s'.
Qed.

(** ** [receiveMapConfigUpdater] *)

Lemma loadMapStyleTasks_elem s (styles : gmap string MapStyle) (t : LoadMapStyleTask) :
  t ∈ loadMapStyleTasks s styles ↔ ∃ k entry, styles !! k = Some entry ∧ t = taskOf s entry.
Proof.
  unfold loadMapStyleTasks. rewrite list_elem_of_fmap. split.
  - intros (entry & -> & [k Hk]%Object_values_elem). by exists k, entry.
  - intros (k & entry & Hk & ->). exists entry. split; [done|].
    apply Object_values_elem. by exists k.
Qed.

Lemma loadMapStyleTasks_length s (styles : gmap string MapStyle) :
  length (loadMapStyleTasks s styles) = size styles.
Proof.
  unfold loadMapStyleTasks, Object_values.
  by rewrite !length_fmap, length_map_to_list.
Qed.

(** C6 (amended).  When [cfg.mapStyle] is absent the state is returned
    unchanged, with no task.  Otherwise the updater returns the state of
    [mapConfigChangeUpdater]; when [cfg.mapStyle.mapStyles] is present it
    schedules one download request for every entry of it, whether or not the
    entry already carries a [style], each with the url built from the entry's
    own access token when that is set (non-empty), else from the state's
    [mapboxApiAccessToken]; when it is absent no task is scheduled. *)
Theorem receiveMapConfig_schedules_every_entry s :
  receiveMapConfigUpdater s None = Ok (s, None) ∧
  ∀ (cfg : MapStyleConfig) s',
    mapConfigChangeUpdater s cfg = Ok s' →
    ∃ tasks, receiveMapConfigUpdater s (Some cfg) = Ok (s', tasks) ∧
      match cfg_mapStyles cfg with
      | None => tasks = None
      | Some styles =>
          ∃ batch, tasks = Some batch ∧
            length batch = size styles ∧
            ∀ t, t ∈ batch ↔ ∃ k entry, styles !! k = Some entry ∧ t = taskOf s entry
      end.
Proof.
  split; [done|]. intros cfg s' Hs'. unfold receiveMapConfigUpdater.
  rewrite Hs'. cbn [bind]. eexists. split; [reflexivity|].
  destruct (cfg_mapStyles cfg) as [styles|]; [|done].
  eexists. split; [reflexivity|]. split.
  - apply loadMapStyleTasks_length.
  - apply loadMapStyleTasks_elem.
Qed.

(** ** [get3DBuildingColor] *)

Lemma find_background_first (ls : list Layer) (l : Layer) :
  List.find (fun x => String.eqb (layer_id x) "background") ls = Some l ↔
  ∃ pre post, ls = pre ++ l :: post ∧ layer_id l = "background" ∧
              Forall (fun x => layer_id x ≠ "background") pre.
Proof.
  split.
  - induction ls as [|x ls IH]; [done|]. cbn [List.find].
    destruct (String.eqb_spec (layer_id x) "background") as [Heq|Hne].
    + intros [= <-]. by exists [], ls.
    + intros (pre & post & -> & Hl & Hpre)%IH.
      exists (x :: pre), post. split; [done|]. split; [done|]. by constructor.
  - intros (pre & post & -> & Hl & Hpre).
    induction Hpre as [|x pre Hx _ IH]; cbn [app List.find].
    + by rewrite Hl.
    + by destruct (String.eqb_spec (layer_id x) "background").
Qed.

Lemma backgroundLayer_spec (doc : StyleDocument) (l : Layer) :
  backgroundLayer doc = Some l ↔ is_background_layer doc l.
Proof.
  unfold backgroundLayer, is_background_layer. rewrite find_background_first.
  split.
  - intros (pre & post & Hls & Hl & Hpre). exists pre, post.
    destruct (layers doc) as [ls|]; simpl in Hls.
    + by subst.
    + by destruct pre.
  - intros (pre & post & Hls & Hl & Hpre). exists pre, post. by rewrite Hls.
Qed.

Lemma buildingColor_background (doc : StyleDocument) (c : string) :
  background_color_of doc c → buildingColor doc = c.
Proof.
  intros (l & paint & Hl%backgroundLayer_spec & Hpaint & Hc & Hne).
  unfold buildingColor. rewrite Hl, Hpaint, Hc. unfold truthy_string.
  by destruct (String.eqb_spec c "").
Qed.

Lemma buildingColor_fallback (doc : StyleDocument) :
  (∀ c, ¬ background_color_of doc c) → buildingColor doc = DEFAULT_BLDG_COLOR.
Proof.
  intros Hnone. unfold buildingColor.
  destruct (backgroundLayer doc) as [l|] eqn:Hl; [|done].
  destruct (layer_paint l) as [paint|] eqn:Hpaint; [|done].
  destruct (paint !! "background-color") as [c|] eqn:Hc; [|done].
  unfold truthy_string. destruct (String.eqb_spec c "") as [Heq|Hne]; [done|].
  destruct (Hnone c). exists l, paint. by rewrite <- backgroundLayer_spec.
Qed.

(** C8.  For every loaded style entry, the building colour is
    [rgb(color)[operation]([0.2])] where [color] is the paint
    [background-color] of the (first) layer whose id is exactly
    ["background"] when that layer has the property set, and [#D1CEC7]
    otherwise, and where [operation] is [brighter] exactly when ["dark"] or
    ["night"] occurs (case-sensitively) in the style id, and [darker]
    otherwise. *)
Theorem building_color_derivation mapStyle style (id : string) :
  ms_style mapStyle = Some style →
  ms_id mapStyle = Some id →
  ∃ (color : string) (op : Operation),
    get3DBuildingColor mapStyle =
      Ok (let rgbObj := apply_operation op (rgb color) [0.2%Q] in
          [rgb_r rgbObj; rgb_g rgbObj; rgb_b rgbObj]) ∧
    (∀ c, background_color_of style c → color = c) ∧
    ((∀ c, ¬ background_color_of style c) → color = "#D1CEC7") ∧
    (op = Brighter ↔ has_substring "dark" id ∨ has_substring "night" id) ∧
    (op = Darker ↔ ¬ (has_substring "dark" id ∨ has_substring "night" id)) ∧
    apply_operation Brighter = brighter ∧
    apply_operation Darker = darker.
Proof.
  intros Hstyle Hid. exists (buildingColor style), (operation id).
  split; [by apply get3DBuildingColor_ok|].
  split; [apply buildingColor_background|].
  split; [apply buildingColor_fallback|].
  unfold operation. rewrite <- match_dark_night_spec.
  destruct (match_dark_night id); repeat split; done.
Qed.

(** ** [getLayerGroupsFromStyle] *)

(** On a document that has [layers], the classifier keeps the groups whose
    predicate holds of at least one layer. *)
Lemma getLayerGroupsFromStyle_layers style (ls : list Layer) :
  layers style = Some ls →
  getLayerGroupsFromStyle style =
    Ok (List.filter (fun lg => existsb (filter_ lg) ls) DEFAULT_LAYER_GROUPS).
Proof.
  intros Hls. unfold getLayerGroupsFromStyle. rewrite Hls.
  induction DEFAULT_LAYER_GROUPS as [|lg lgs IH]; [done|].
  cbn [filterM List.filter bind]. rewrite IH. cbn [bind].
  replace (negb (Nat.eqb (length (List.filter (filter_ lg) ls)) 0))
    with (existsb (filter_ lg) ls); [done|].
  clear. induction ls as [|l ls IH]; [done|]. cbn [existsb List.filter].
  by destruct (filter_ lg l).
Qed.

Lemma getLayerGroupsFromStyle_empty style :
  layers style = Some [] → getLayerGroupsFromStyle style = Ok [].
Proof.
  intros Hls. rewrite (getLayerGroupsFromStyle_layers _ _ Hls).
  f_equal. induction DEFAULT_LAYER_GROUPS as [|lg lgs IH]; [done|]. exact IH.
Qed.

Lemma getLayerGroupsFromStyle_missing style :
  layers style = None →
  DEFAULT_LAYER_GROUPS ≠ [] →
  getLayerGroupsFromStyle style =
    Throw (TypeError "Cannot read property 'filter' of undefined").
Proof.
  intros Hls Hne. unfold getLayerGroupsFromStyle. rewrite Hls.
  by destruct DEFAULT_LAYER_GROUPS.
Qed.

(** C10 (what the code does).  On a style document without [layers], and
    with at least one layer group to test, the classifier throws a
    [TypeError], and so do the resolution of a custom style and the reduce
    over the documents downloaded for a saved config. *)
Theorem classifier_throws_on_missing_layers style :
  layers style = None →
  DEFAULT_LAYER_GROUPS ≠ [] →
  let e := TypeError "Cannot read property 'filter' of undefined" in
  getLayerGroupsFromStyle style = Throw e ∧
  (∀ s icon error, loadCustomMapStyleUpdater s icon (Some style) error = Throw e) ∧
  (∀ saved accu (id : string) rest,
     loadedMapStyles saved accu ((id, style) :: rest) = Throw e).
Proof.
  intros Hls Hne e.
  pose proof (getLayerGroupsFromStyle_missing style Hls Hne) as Hthrow.
  split; [done|]. split.
  - intros s icon error. unfold loadCustomMapStyleUpdater. by rewrite Hthrow.
  - intros saved accu id rest. cbn [loadedMapStyles]. by rewrite Hthrow.
Qed.

End Properties.

(** * The properties on the example states *)

Section Examples.
Import Model.

(** Selecting a style that is not registered at all is a no-op. *)
Lemma mapStyleChange_absent_noop_witness :
  mapStyles lightLoaded !! "satellite" = None ∧
  mapStyleChangeUpdater lightLoaded "satellite" = Ok lightLoaded.
Proof.
  split; [reflexivity|].
  apply (mapStyleChange_absent_noop lightLoaded "satellite"). reflexivity.
Defined.

(** C1 fails as stated: the dark style is registered and its document is
    not downloaded, and selecting it changes [styleType] from ["light"] to
    ["dark"]. *)
Lemma mapStyleChange_pending_changes_styleType :
  is_Some (mapStyles lightLoaded !! "dark") ∧
  resolvedStyle lightLoaded "dark" = None ∧
  styleType lightLoaded = "light" ∧
  mapStyleChangeUpdater lightLoaded "dark" ≠ Ok lightLoaded ∧
  ∃ s', mapStyleChangeUpdater lightLoaded "dark" = Ok s' ∧ styleType s' = "dark".
Proof.
  split; [by eexists|]. split; [reflexivity|]. split; [reflexivity|]. split.
  - intros H.
    apply (f_equal (fun r => match r with Ok s => styleType s | Throw _ => "" end)) in H.
    vm_compute in H. discriminate.
  - eexists. split; reflexivity.
Qed.

Lemma bottom_style_identity_fast_path_witness :
  visibleLayerGroups lightLoaded = ∅ ∧
  ∃ r, getMapStyles lightLoaded = Ok (Some r) ∧
       res_bottomMapStyle r = fromJS lightDoc ∧
       toJS (res_bottomMapStyle r) = lightDoc.
Proof.
  split; [reflexivity|].
  destruct (bottom_style_identity_fast_path lightLoaded
              (entry "light" "mapbox://styles/preset/light" (Some lightDoc))
              lightDoc eq_refl eq_refl eq_refl) as [Hbottom Hproduced].
  destruct Hproduced as [r Hr]; [by eexists|].
  exists r. split; [exact Hr | exact (Hbottom r Hr)].
Defined.

(** The editor modelled from the spec shows a group only where its
    visibility map marks the group visible. *)
Lemma group_of_layer_id (l1 l2 : Layer) :
  layer_id l1 = layer_id l2 → group_of l1 = group_of l2.
Proof.
  intros H. unfold group_of, layerGroups.
  cbn [map List.find layerGroup filter_]. by rewrite H.
Qed.

Lemma edit_layers (visible : string → bool) (m : MapStyle) (l' : Layer) :
  l' ∈ default [] (layers (toJS (edit visible m))) →
  ∃ l, l' = match List.find (fun lg => filter_ lg l) layerGroups with
            | Some lg => set_visibility l (visible (slug lg))
            | None => l
            end.
Proof.
  unfold edit. cbn [toJS layers].
  destruct (layers (default {| doc_id := None; doc_name := None; layers := None |}
                      (ms_style m))) as [ls|];
    cbn [fmap option_fmap option_map default from_option id].
  - intros (l & <- & _)%list_elem_of_In%in_map_iff. by exists l.
  - by intros Hin%elem_of_nil.
Qed.

Lemma editTop_shows_marked_groups (i : string) (m : MapStyle) (v : MaskedMap) (g : string) :
  shows g (editTop i m v) → truthy (mjoin (v !! g)) = true.
Proof.
  intros (l' & Hin & Hgroup & Hvisible). unfold editTop in Hin.
  apply edit_layers in Hin as [l ->].
  destruct (List.find (fun lg => filter_ lg l) layerGroups) as [lg|] eqn:Hfind.
  - rewrite (group_of_layer_id
               (set_visibility l (truthy (mjoin (v !! slug lg)))) l eq_refl) in Hgroup.
    unfold group_of in Hgroup. rewrite Hfind in Hgroup. injection Hgroup as <-.
    cbn [layer_layout set_visibility mbind option_bind] in Hvisible.
    rewrite lookup_insert_eq in Hvisible.
    by destruct (truthy (mjoin (v !! slug lg))).
  - unfold group_of in Hgroup. by rewrite Hfind in Hgroup.
Qed.

Lemma top_visibility_masked_witness :
  visibleLayerGroups labelsMasked ≠ ∅ ∧
  ∃ r top, getMapStyles labelsMasked = Ok (Some r) ∧
           res_topMapStyle r = Some top ∧
           ¬ shows "label" top.
Proof.
  assert (Hne : visibleLayerGroups labelsMasked ≠ ∅).
  { intros H. apply (f_equal (fun m => m !! "road")) in H. vm_compute in H. discriminate. }
  split; [exact Hne|].
  destruct (top_visibility_masked shows labelsMasked
              (entry "light" "mapbox://styles/preset/light" (Some lightDoc))
              lightDoc "light" editTop_shows_marked_groups eq_refl eq_refl eq_refl Hne)
    as (r & Hr & _ & Hhidden & Hproduced & _).
  exists r. eexists. split; [exact Hr|]. split.
  - apply Hproduced. exists "label". reflexivity.
  - apply (Hhidden "label"); [reflexivity|].
    apply Hproduced. exists "label". reflexivity.
Defined.

(** C2 fails as stated: the only group the top map asks for is hidden in
    the bottom map, so no group is visible under the masked intersection, and
    a top style is produced all the same. *)
Lemma top_style_with_every_group_masked :
  visibleLayerGroups labelsMasked ≠ ∅ ∧
  is_Some (resolvedStyle labelsMasked (styleType labelsMasked)) ∧
  (∀ g, truthy (js_and (topLayerGroups labelsMasked !! g)
                       (visibleLayerGroups labelsMasked !! g)) = false) ∧
  ∃ r, getMapStyles labelsMasked = Ok (Some r) ∧ is_Some (res_topMapStyle r).
Proof.
  split.
  { intros H. apply (f_equal (fun m => m !! "road")) in H. vm_compute in H. discriminate. }
  split; [by eexists|]. split.
  - intros g. cbn [topLayerGroups labelsMasked].
    destruct (decide (g = "label")) as [->|Hne]; [reflexivity|].
    by rewrite lookup_singleton_ne.
  - eexists. split; [reflexivity|]. by eexists.
Qed.

Lemma derived_fields_after_update_witness :
  ∃ s', mapConfigChangeUpdater lightLoaded selectDark = Ok s' ∧
        getMapStyles s' = Ok None ∧
        bottomMapStyle s' = bottomMapStyle lightLoaded ∧
        topMapStyle s' = topMapStyle lightLoaded ∧
        threeDBuildingColor s' = threeDBuildingColor lightLoaded.
Proof.
  eexists. split; [reflexivity|]. split; [reflexivity|].
  match goal with |- bottomMapStyle ?s' = _ ∧ _ =>
    pose proof (derived_fields_after_update lightLoaded s'
                  (updated_mapConfigChange lightLoaded selectDark s' eq_refl))
      as (_ & H & _);
    exact (H selectDark eq_refl)
  end.
Defined.

(** C3 fails as stated: the light style is active and its derived fields
    are up to date; selecting the dark style, which is not downloaded,
    changes [styleType] and leaves the bottom style of the light style in
    the state, where recomputing from the canonical fields yields none. *)
Lemma stale_after_selecting_pending_style :
  upToDate lightLoaded ∧
  ∃ s', mapConfigChangeUpdater lightLoaded selectDark = Ok s' ∧
        styleType s' = "dark" ∧
        getMapStyles s' = Ok None ∧
        bottomMapStyle s' = Some (fromJS lightDoc) ∧
        ¬ upToDate s'.
Proof.
  split; [by vm_compute|].
  eexists. split; [reflexivity|]. split; [reflexivity|]. split; [reflexivity|].
  split; [reflexivity|]. vm_compute. intros [H _]. discriminate.
Qed.

Lemma addCustomMapStyle_commits_witness :
  ms_id (inputStyle customStaged) = Some "custom_style_1" ∧
  ∃ s', addCustomMapStyleUpdater customStaged = Ok s' ∧
        mapStyles s' !! "custom_style_1" = Some customEntry ∧
        styleType s' = "custom_style_1" ∧
        inputStyle s' = getInitialInputStyle.
Proof.
  split; [reflexivity|].
  destruct (addCustomMapStyle_commits customStaged "custom_style_1" eq_refl)
    as (s' & Hs' & Hm & Ht & Hi & _).
  by exists s'.
Defined.

Lemma loadMapStyles_merges_and_restyles_witness :
  ∃ s', loadMapStylesUpdater darkPending {[ "dark" := darkEntry ]} = Ok s' ∧
        styleType s' = "dark" ∧
        bottomMapStyle s' =
          Some (bottomEdit "dark" darkEntry darkDoc
                  (mergeLayerGroupVisibility (getDefaultLayerGroupVisibility darkEntry)
                     (visibleLayerGroups darkPending))).
Proof.
  destruct (loadMapStyles_merges_and_restyles darkPending {[ "dark" := darkEntry ]})
    as (_ & _ & _ & H).
  destruct (H darkEntry darkDoc "dark" eq_refl eq_refl eq_refl)
    as (s' & Hs' & Ht & _ & Hb).
  by exists s'.
Defined.

(** C5 fails as stated: the labels were switched off before the dark style
    arrived; the bottom style produced on arrival hides them, the document
    edited with the default visibility of the dark style shows them. *)
Lemma bottom_style_keeps_customized_visibility :
  styleType darkPending = "dark" ∧
  ∃ s', loadMapStylesUpdater darkPending {[ "dark" := darkEntry ]} = Ok s' ∧
        is_Some (bottomMapStyle s') ∧
        bottomMapStyle s' ≠
          Some (bottomEdit "dark" darkEntry darkDoc
                  (getDefaultLayerGroupVisibility darkEntry)) ∧
        visibilities <$> bottomMapStyle s' =
          Some [("background", Some "visible"); ("road-primary", Some "visible");
                ("place-label", Some "none")].
Proof.
  split; [reflexivity|]. eexists. split; [reflexivity|].
  split; [by eexists|]. split; [|reflexivity].
  intros H. apply (f_equal (fmap visibilities)) in H. vm_compute in H. discriminate.
Qed.

Lemma receiveMapConfig_schedules_every_entry_witness :
  ∃ s' tasks,
    receiveMapConfigUpdater lightLoaded (Some savedConfig) = Ok (s', tasks) ∧
    ∃ batch, tasks = Some batch ∧ length batch = 1.
Proof.
  destruct (receiveMapConfig_schedules_every_entry lightLoaded) as [_ H].
  assert (Hs : ∃ s', mapConfigChangeUpdater lightLoaded savedConfig = Ok s')
    by (eexists; reflexivity).
  destruct Hs as [s' Hs'].
  destruct (H savedConfig s' Hs') as (tasks & Ht & Hb).
  cbn [cfg_mapStyles savedConfig] in Hb. destruct Hb as (batch & -> & Hlen & _).
  exists s', (Some batch). split; [exact Ht|]. exists batch. split; [reflexivity|].
  rewrite Hlen. reflexivity.
Defined.

(** C6 fails as stated: the only entry of the saved [mapStyles] carries its
    [style], and a download is scheduled for it. *)
Lemma download_scheduled_for_resolved_entry :
  cfg_mapStyles savedConfig = Some {[ "custom_style_1" := customEntry ]} ∧
  is_Some (ms_style customEntry) ∧
  ∃ s', receiveMapConfigUpdater lightLoaded (Some savedConfig) =
          Ok (s', Some [ {| task_id := Some "custom_style_1";
                            task_url := "mapbox://styles/user/custom?access_token=pk.own" |} ]).
Proof.
  split; [reflexivity|]. split; [by eexists|]. eexists. reflexivity.
Qed.

Lemma building_color_derivation_witness :
  ∃ color op,
    get3DBuildingColor darkEntry =
      Ok (let rgbObj := apply_operation op (rgb color) [0.2%Q] in
          [rgb_r rgbObj; rgb_g rgbObj; rgb_b rgbObj]) ∧
    color = "#101010" ∧ op = Brighter.
Proof.
  destruct (building_color_derivation darkEntry darkDoc "dark" eq_refl eq_refl)
    as (color & op & Hc & Hbg & _ & Hop & _).
  exists color, op. split; [exact Hc|]. split.
  - apply Hbg. exists (layer "background" (Some {["background-color" := "#101010"]})),
      {["background-color" := "#101010"]}.
    split; [|split; [reflexivity | split; [vm_compute; reflexivity | discriminate]]].
    exists [], [layer "road-primary" None; layer "place-label" None].
    split; [reflexivity | split; [reflexivity | constructor]].
  - apply Hop. left. exists "", "". reflexivity.
Defined.

Lemma classifier_throws_on_missing_layers_witness :
  layers noLayersDoc = None ∧
  getLayerGroupsFromStyle noLayersDoc =
    Throw (TypeError "Cannot read property 'filter' of undefined") ∧
  loadCustomMapStyleUpdater lightLoaded None (Some noLayersDoc) None =
    Throw (TypeError "Cannot read property 'filter' of undefined").
Proof.
  split; [reflexivity|].
  destruct (classifier_throws_on_missing_layers noLayersDoc eq_refl) as (H1 & H2 & _).
  { discriminate. }
  split; [exact H1 | apply H2].
Defined.

(** C9 (what the code does).  The channels returned are the [r], [g], [b] of
    the object d3-color gives, neither rounded nor clamped: for a style whose
    id contains ["dark"] on a ["#ffffff"] background every channel is
    [255] times the brightening factor, which is above [255]. *)
Theorem building_color_not_clamped (up down : Q) :
  (1 < up)%Q →
  @get3DBuildingColor (d3color up down) whiteDark =
    Ok [(255 * up)%Q; (255 * up)%Q; (255 * up)%Q] ∧
  (255 < 255 * up)%Q.
Proof.
  intros Hup. split; [reflexivity|].
  destruct up as [n d]. unfold Qlt in *. cbn in *. lia.
Qed.

Lemma building_color_not_clamped_witness :
  @get3DBuildingColor (d3color (10739 # 10000) (9311 # 10000)) whiteDark =
    Ok [(255 * (10739 # 10000))%Q; (255 * (10739 # 10000))%Q;
        (255 * (10739 # 10000))%Q] ∧
  (255 < 255 * (10739 # 10000))%Q.
Proof.
  apply (building_color_not_clamped (10739 # 10000) (9311 # 10000)). reflexivity.
Defined.

End Examples.

(** * Further properties of the reducer *)

Section Derivation.
Context {E : Env}.

Implicit Types (s : MapStyleState) (mapStyle : MapStyle) (style : StyleDocument).

(** ** The classifier *)

Lemma filter_sublist {A} (f : A → bool) (l : list A) :
  sublist (List.filter f l) l.
Proof.
  induction l as [|x l IH]; [constructor|]. cbn [List.filter].
  destruct (f x); by constructor.
Qed.

(** X1.  On a document that has [layers], [getLayerGroupsFromStyle] returns
    the entries of [DEFAULT_LAYER_GROUPS] whose filter accepts at least one
    layer, and no other, in the order of [DEFAULT_LAYER_GROUPS]. *)
Theorem classifier_keeps_matching_groups style (ls : list Layer) :
  layers style = Some ls →
  ∃ groups,
    getLayerGroupsFromStyle style = Ok groups ∧
    (∀ lg, lg ∈ groups ↔
           lg ∈ DEFAULT_LAYER_GROUPS ∧ ∃ l, l ∈ ls ∧ filter_ lg l = true) ∧
    sublist groups DEFAULT_LAYER_GROUPS.
Proof.
  intros Hls. eexists. split; [by apply getLayerGroupsFromStyle_layers|]. split.
  - intros lg. rewrite list_elem_of_In, filter_In, existsb_exists, <- list_elem_of_In.
    split; intros [Hin (l & Hl & Hf)]; (split; [done|]); exists l;
      (split; [|done]); by apply list_elem_of_In.
  - apply filter_sublist.
Qed.

(** X2.  [getLayerGroupsFromStyle] throws exactly when the document has no
    [layers] and there is a layer group to test; in particular it never
    throws on a document with [layers], and empty [layers] give no group. *)
Theorem classifier_throws_iff style :
  ((∃ e, getLayerGroupsFromStyle style = Throw e) ↔
   layers style = None ∧ DEFAULT_LAYER_GROUPS ≠ []) ∧
  (layers style = Some [] → getLayerGroupsFromStyle style = Ok []).
Proof.
  split; [|apply getLayerGroupsFromStyle_empty]. split.
  - intros [e He]. destruct (layers style) as [ls|] eqn:Hls.
    + by rewrite (getLayerGroupsFromStyle_layers _ _ Hls) in He.
    + split; [done|]. intros Hnil. unfold getLayerGroupsFromStyle in He.
      by rewrite Hnil in He.
  - intros [Hls Hne]. eexists. by apply getLayerGroupsFromStyle_missing.
Qed.

(** ** The two map styles *)

(** X3.  Whenever [getMapStyles] produces styles, [editable] is the number
    of keys of [visibleLayerGroups], and a top style is among them exactly
    when [visibleLayerGroups] is non-empty and some group of
    [topLayerGroups] is [true]: before the bottom map is customized there is
    no top style, whatever [topLayerGroups] holds. *)
Theorem top_style_produced_iff s (r : MapStyles) :
  getMapStyles s = Ok (Some r) →
  res_editable r = size (visibleLayerGroups s) ∧
  (is_Some (res_topMapStyle r) ↔
   visibleLayerGroups s ≠ ∅ ∧ ∃ g, topLayerGroups s !! g = Some true).
Proof.
  unfold getMapStyles.
  destruct (mapStyles s !! styleType s) as [m|]; [|done].
  destruct (ms_style m) as [style|]; [|done].
  destruct (get3DBuildingColor m) as [c|e]; [|done].
  cbn [bind]. intros [= <-]. cbn [res_editable res_topMapStyle]. split.
  - unfold Object_keys. by rewrite length_fmap, length_map_to_list.
  - rewrite <- some_visible, <- Object_keys_length_0.
    destruct (Nat.eqb_spec (length (Object_keys (visibleLayerGroups s))) 0) as [H0|H0];
      cbn [negb andb].
    + split; [by intros [x Hx] | by intros [Hne _]].
    + destruct (existsb (fun v => v) (Object_values (topLayerGroups s))).
      * split; [done | by eexists].
      * split; [by intros [x Hx] | by intros [_ Hf]].
Qed.

(** X4.  The masked visibility handed to the top-map editor has the keys of
    [topLayerGroups], and a group is visible in it exactly when it is [true]
    both in [topLayerGroups] and in [visibleLayerGroups]. *)
Theorem masked_visibility (T B : VisibilityMap) :
  dom (topLayers T B) = dom T ∧
  ∀ g, truthy (mjoin (topLayers T B !! g)) = true ↔
       T !! g = Some true ∧ B !! g = Some true.
Proof.
  split.
  - apply set_eq. intros g. rewrite !elem_of_dom, topLayers_lookup.
    destruct (T !! g); split; intros [x Hx]; by eauto.
  - intros g. rewrite topLayers_read. unfold js_and.
    destruct (T !! g) as [[|]|], (B !! g) as [[|]|]; cbn;
      (split; [intros ? | intros [? ?]]); first [done | congruence].
Qed.

(** X5.  [getMapStyles] throws exactly when the active entry is downloaded
    and has no id, and returns the empty object exactly when the active
    style is not registered or not downloaded. *)
Theorem getMapStyles_outcomes s :
  ((∃ e, getMapStyles s = Throw e) ↔
   ∃ mapStyle, mapStyles s !! styleType s = Some mapStyle ∧
               is_Some (ms_style mapStyle) ∧ ms_id mapStyle = None) ∧
  (getMapStyles s = Ok None ↔ resolvedStyle s (styleType s) = None).
Proof.
  unfold resolvedStyle, getMapStyles, get3DBuildingColor.
  destruct (mapStyles s !! styleType s) as [m|]; cbn [mbind option_bind].
  - destruct (ms_style m) as [style|] eqn:Hstyle.
    + destruct (ms_id m) as [id|] eqn:Hid; cbn [bind].
      * split; [|done]. split; [by intros [e He]|].
        intros (m' & [= <-] & _ & Hnone). congruence.
      * split; [|done]. split; [|by eexists].
        intros _. exists m. by rewrite Hstyle.
    + split; [|done]. split; [by intros [e He]|].
      intros (m' & [= <-] & [x Hx] & _). congruence.
  - split; [|done]. split; [by intros [e He] | by intros (m' & Hm' & _)].
Qed.

(** ** The building colour *)

(** X6.  Only the first layer whose id is ["background"] counts for the
    building colour: the layers before it, the layers after it and the other
    fields of the document never influence it. *)
Theorem building_color_first_background (d d' : StyleDocument)
    (pre post : list Layer) (l : Layer) :
  layers d = Some (pre ++ l :: post) →
  Forall (fun x => layer_id x ≠ "background") pre →
  layer_id l = "background" →
  layers d' = Some [l] →
  buildingColor d = buildingColor d'.
Proof.
  intros Hd Hpre Hl Hd'.
  assert (H1 : backgroundLayer d = Some l).
  { apply backgroundLayer_spec. by exists pre, post. }
  assert (H2 : backgroundLayer d' = Some l).
  { apply backgroundLayer_spec. exists [], []. by rewrite Hd'. }
  unfold buildingColor. by rewrite H1, H2.
Qed.

(** X18.  The building colour [getMapStyles] produces depends on the
    active entry only: two states with the same active entry get the same
    colour, whatever their visibility maps. *)
Theorem building_color_ignores_visibility s1 s2 (r1 r2 : MapStyles) :
  getMapStyles s1 = Ok (Some r1) →
  getMapStyles s2 = Ok (Some r2) →
  mapStyles s1 !! styleType s1 = mapStyles s2 !! styleType s2 →
  res_threeDBuildingColor r1 = res_threeDBuildingColor r2.
Proof.
  unfold getMapStyles. intros H1 H2 Heq. rewrite <- Heq in H2.
  destruct (mapStyles s1 !! styleType s1) as [m|]; [|done].
  destruct (ms_style m) as [style|]; [|done].
  destruct (get3DBuildingColor m) as [c|e]; [|done].
  cbn [bind] in H1, H2. by injection H1 as <-; injection H2 as <-.
Qed.

End Derivation.

Section Transitions.
Context {E : Env}.

Implicit Types (s : MapStyleState) (mapStyle : MapStyle) (style : StyleDocument).

(** ** What a style change leaves alone *)

Lemma mapStyleChangeUpdater_frame s (newId : string) s' :
  mapStyleChangeUpdater s newId = Ok s' →
  mapStyles s' = mapStyles s ∧
  mapboxApiAccessToken s' = mapboxApiAccessToken s ∧
  inputStyle s' = inputStyle s ∧
  topLayerGroups s' = topLayerGroups s ∧
  initialState s' = initialState s ∧
  (styleType s' = newId ∨ mapStyles s !! newId = None ∧ s' = s).
Proof.
  unfold mapStyleChangeUpdater. destruct (mapStyles s !! newId) as [m|].
  - match goal with |- context [getMapStyles ?n] =>
      destruct (getMapStyles n) as [r|e]; [|done] end.
    cbn [bind]. intros [= <-]. destruct r; cbn; auto 10.
  - intros [= <-]. auto 10.
Qed.


(** ** [mapConfigChangeUpdater] *)

Lemma default_again {A} (a : A) (o : option A) :
  default (default a o) o = default a o.
Proof. by destruct o. Qed.

Lemma getMapStyles_spread_again s (payload : MapStyleConfig) (r : option MapStyles) :
  getMapStyles (spreadConfig (spreadMapStyles (spreadConfig s payload) r) payload) =
  getMapStyles (spreadConfig s payload).
Proof.
  apply getMapStyles_canonical; destruct r;
    cbn [spreadConfig spreadMapStyles styleType visibleLayerGroups topLayerGroups mapStyles];
    apply default_again.
Qed.

Lemma spread_again s (payload : MapStyleConfig) (r : option MapStyles) :
  spreadMapStyles
    (spreadConfig (spreadMapStyles (spreadConfig s payload) r) payload) r =
  spreadMapStyles (spreadConfig s payload) r.
Proof.
  destruct r as [r|]; unfold spreadConfig, spreadMapStyles;
    cbn [styleType visibleLayerGroups topLayerGroups
         mapStyles mapboxApiAccessToken inputStyle threeDBuildingColor
         bottomMapStyle topMapStyle editable initialState];
    by rewrite !default_again.
Qed.

(** X7.  [mapConfigChangeUpdater] is idempotent: applying the same payload
    to the state it returned returns that state again. *)
Theorem mapConfigChangeUpdater_idempotent s (payload : MapStyleConfig) s' :
  mapConfigChangeUpdater s payload = Ok s' →
  mapConfigChangeUpdater s' payload = Ok s'.
Proof.
  unfold mapConfigChangeUpdater at 1.
  destruct (getMapStyles (spreadConfig s payload)) as [r|e] eqn:Hr; [|done].
  cbn [bind]. intros [= <-]. unfold mapConfigChangeUpdater.
  rewrite getMapStyles_spread_again, Hr. cbn [bind].
  by rewrite spread_again.
Qed.

(** ** [loadMapStylesUpdater] *)

(** X8.  Delivering styles that are already registered as they are, none of
    them the active one, changes nothing (the empty payload is the least
    such delivery). *)
Theorem loadMapStyles_known_is_noop s (newStyles : gmap string MapStyle) :
  newStyles ⊆ mapStyles s →
  newStyles !! styleType s = None →
  loadMapStylesUpdater s newStyles = Ok s.
Proof.
  intros Hsub Hnone. unfold loadMapStylesUpdater.
  rewrite Hnone, (map_subseteq_union _ _ Hsub).
  by destruct s.
Qed.

(** X9.  Selecting a style that is registered but not downloaded, and then
    receiving its document, completes the selection: the first step changes
    [styleType] and keeps the bottom style of the previous selection, the
    second produces the bottom style of the new document, edited with the
    visibility the two steps merged. *)
Theorem select_then_load s (id : string) (pending entry : MapStyle)
    (doc : StyleDocument) (entryId : string) (newStyles : gmap string MapStyle) :
  mapStyles s !! id = Some pending →
  ms_style pending = None →
  newStyles !! id = Some entry →
  ms_style entry = Some doc →
  ms_id entry = Some entryId →
  ∃ s1 s2,
    mapStyleChangeUpdater s id = Ok s1 ∧
    styleType s1 = id ∧
    bottomMapStyle s1 = bottomMapStyle s ∧
    loadMapStylesUpdater s1 newStyles = Ok s2 ∧
    styleType s2 = id ∧
    visibleLayerGroups s2 =
      mergeLayerGroupVisibility (getDefaultLayerGroupVisibility entry)
        (mergeLayerGroupVisibility (getDefaultLayerGroupVisibility pending)
           (visibleLayerGroups s)) ∧
    bottomMapStyle s2 = Some (bottomEdit id entry doc (visibleLayerGroups s2)).
Proof.
  intros Hpending Hnostyle Hentry Hdoc Hid.
  eexists. rewrite (mapStyleChange_pending s id pending Hpending Hnostyle).
  match goal with |- ∃ s2, Ok ?x = Ok _ ∧ _ => set (s1 := x) end.
  assert (Hm : mapStyles (set_mapStyles s1 (newStyles ∪ mapStyles s1)) !! id = Some entry).
  { cbn [mapStyles set_mapStyles]. by rewrite lookup_merged_styles, Hentry. }
  pose proof (mapStyleChange_loaded _ id entry doc entryId Hm Hdoc Hid) as H.
  cbv zeta in H. destruct H as (s2 & Hs2 & Ht & Hv & _ & _ & Hb).
  exists s2. split; [done|]. split; [done|]. split; [done|]. split.
  - unfold loadMapStylesUpdater.
    cbn [styleType set_styleType_visibleLayerGroups]. rewrite Hentry. exact Hs2.
  - split; [done|]. split; [exact Hv|]. by rewrite Hv.
Qed.

(** ** The documents downloaded for a saved configuration *)

(** X10.  When every downloaded document has [layers], the reduce over the
    results succeeds; it leaves the ids it did not download as they were in
    the accumulator and, the downloaded ids being distinct, maps each to the
    saved entry of that id (or to an empty one) with the document as [style]
    and its classified layer groups. *)
Theorem loadedMapStyles_resolves (saved : gmap string MapStyle)
    (results : list (string * StyleDocument)) :
  Forall (fun r => is_Some (layers r.2)) results →
  ∀ accu, ∃ m,
    loadedMapStyles saved accu results = Ok m ∧
    (∀ id, id ∉ results.*1 → m !! id = accu !! id) ∧
    (NoDup results.*1 →
     ∀ id style, (id, style) ∈ results →
       ∃ layerGroups,
         getLayerGroupsFromStyle style = Ok layerGroups ∧
         m !! id = Some (set_style_layerGroups
                           (default emptyMapStyle (saved !! id)) layerGroups style)).
Proof.
  induction 1 as [|[id0 style0] results [ls Hls] _ IH]; intros accu.
  - exists accu. split; [done|]. split; [done|]. intros _ id style Hin.
    by apply elem_of_nil in Hin.
  - cbn [loadedMapStyles].
    pose proof (getLayerGroupsFromStyle_layers style0 ls Hls) as Hlg.
    rewrite Hlg. cbn [bind].
    match goal with |- context [loadedMapStyles saved ?a results] =>
      destruct (IH a) as (m & Hm & Hother & Hin) end.
    exists m. split; [done|]. split.
    + intros id Hid. cbn [fmap list_fmap fst] in Hid.
      apply not_elem_of_cons in Hid as [Hne Hid].
      rewrite (Hother id Hid). by rewrite lookup_insert_ne.
    + cbn [fmap list_fmap fst]. intros [Hfresh Hnodup]%NoDup_cons id style.
      intros [[= -> ->]|Hrest]%elem_of_cons.
      * eexists. split; [exact Hlg|].
        rewrite (Hother id0 Hfresh). by rewrite lookup_insert_eq.
      * by apply Hin.
Qed.

(** ** The staged custom style *)

(** X11.  [loadCustomMapStyleUpdater] with neither icon, style nor error
    changes nothing; in every case it changes [inputStyle] only and keeps the
    staged [url], [accessToken], [isValid] and [custom]. *)
Theorem loadCustomMapStyle_stages_only s :
  loadCustomMapStyleUpdater s None None None = Ok s ∧
  ∀ (icon : option string) (style : option StyleDocument)
    (error : option ErrorField) s',
    loadCustomMapStyleUpdater s icon style error = Ok s' →
    s' = set_inputStyle s (inputStyle s') ∧
    ms_url (inputStyle s') = ms_url (inputStyle s) ∧
    ms_accessToken (inputStyle s') = ms_accessToken (inputStyle s) ∧
    ms_isValid (inputStyle s') = ms_isValid (inputStyle s) ∧
    ms_custom (inputStyle s') = ms_custom (inputStyle s).
Proof.
  split.
  - unfold loadCustomMapStyleUpdater. cbn [bind truthy_ostring].
    by destruct s as [? ? ? ? ? [] ? ? ? ? ?].
  - intros icon style error s' H. unfold loadCustomMapStyleUpdater in H.
    destruct style as [style|];
      [destruct (getLayerGroupsFromStyle style) as [lg|e]; [|done]|];
      cbn [bind] in H; by injection H as <-.
Qed.

(** X12.  Resolving a custom style whose document has [layers] and then
    committing it activates it: the style is registered under the id of the
    document (the generated id when the document has none), its document is
    the one received, it is the selected style with a bottom style
    produced, [inputStyle] is blank again and the other entries of the
    registry are untouched. *)
Theorem resolve_then_commit s (icon : option string) (style : StyleDocument)
    (error : option ErrorField) (ls : list Layer) :
  layers style = Some ls →
  let id := if truthy_ostring (doc_id style)
            then property_key (doc_id style) else generateHashId in
  ∃ s1 s2,
    loadCustomMapStyleUpdater s icon (Some style) error = Ok s1 ∧
    addCustomMapStyleUpdater s1 = Ok s2 ∧
    styleType s2 = id ∧
    resolvedStyle s2 id = Some style ∧
    is_Some (bottomMapStyle s2) ∧
    inputStyle s2 = getInitialInputStyle ∧
    ∀ k, k ≠ id → mapStyles s2 !! k = mapStyles s !! k.
Proof.
  intros Hls id. unfold loadCustomMapStyleUpdater.
  rewrite (getLayerGroupsFromStyle_layers _ _ Hls). cbn [bind]. fold id.
  match goal with |- ∃ s1 s2, Ok ?x = Ok _ ∧ _ => set (s1 := x) end.
  exists s1. unfold addCustomMapStyleUpdater.
  assert (Hkey : property_key (ms_id (inputStyle s1)) = id) by reflexivity.
  rewrite Hkey.
  match goal with |- ∃ s2, _ ∧ mapStyleChangeUpdater ?n _ = _ ∧ _ => set (staged := n) end.
  assert (Hm : mapStyles staged !! id = Some (inputStyle s1)).
  { cbn [mapStyles staged set_inputStyle set_mapStyles]. by rewrite lookup_insert_eq. }
  pose proof (mapStyleChange_loaded staged id (inputStyle s1) style id Hm eq_refl eq_refl) as H.
  cbv zeta in H. destruct H as (s2 & Hs2 & Ht & _ & Hstyles & Hinput & Hb).
  exists s2. split; [done|]. split; [done|]. split; [done|]. split.
  { unfold resolvedStyle. by rewrite Hstyles, Hm. }
  split; [by rewrite Hb|]. split; [by rewrite Hinput|].
  intros k Hk. rewrite Hstyles. cbn [mapStyles staged set_inputStyle set_mapStyles].
  by rewrite lookup_insert_ne.
Qed.

(** ** [resetMapConfigMapStyleUpdater] *)

Lemma resetMapConfigMapStyleUpdater_ext s1 s2 :
  mapStyles s1 = mapStyles s2 →
  initialState s1 = initialState s2 →
  default (mapboxApiAccessToken s1)
    (cfg_mapboxApiAccessToken (default noKeys (initialState s2))) =
  default (mapboxApiAccessToken s2)
    (cfg_mapboxApiAccessToken (default noKeys (initialState s2))) →
  resetMapConfigMapStyleUpdater s1 = resetMapConfigMapStyleUpdater s2.
Proof.
  intros H1 H2 H3. unfold resetMapConfigMapStyleUpdater.
  cbn [spreadConfig styleType visibleLayerGroups topLayerGroups
       mapStyles mapboxApiAccessToken inputStyle threeDBuildingColor
       bottomMapStyle topMapStyle editable initialState].
  by rewrite H1, H2, H3.
Qed.

(** X13.  A reset keeps the registry and [initialState], selects the style
    of [initialState] (["light"] when it names none), and is idempotent. *)
Theorem resetMapConfigMapStyle_keeps_registry s s' :
  resetMapConfigMapStyleUpdater s = Ok s' →
  mapStyles s' = mapStyles s ∧
  initialState s' = initialState s ∧
  styleType s' = default "light" (initialState s ≫= cfg_styleType) ∧
  resetMapConfigMapStyleUpdater s' = Ok s'.
Proof.
  intros H. pose proof H as Hreset. unfold resetMapConfigMapStyleUpdater in H.
  apply mapStyleChangeUpdater_frame in H as (Hm & Ht & _ & _ & Hinit & Hst).
  cbn [spreadConfig mapStyles mapboxApiAccessToken initialState styleType]
    in Hm, Ht, Hinit.
  assert (Hsel : styleType s' = default "light" (initialState s ≫= cfg_styleType)).
  { destruct Hst as [->|[_ ->]]; cbn [spreadConfig styleType];
      by destruct (initialState s). }
  repeat (split; [done|]).
  rewrite (resetMapConfigMapStyleUpdater_ext s' s Hm Hinit); [done|].
  rewrite Ht. apply default_again.
Qed.

(** ** The default registry *)

Lemma registry_fold_lookup (l : list MapStyle) (accu : gmap string MapStyle)
    (k : string) (m : MapStyle) :
  foldl (fun accu curr => <[property_key (ms_id curr) := curr]> accu) accu l !! k = Some m →
  (m ∈ l ∧ property_key (ms_id m) = k) ∨ accu !! k = Some m.
Proof.
  revert accu. induction l as [|x l IH]; intros accu; cbn [foldl]; [by right|].
  intros [[Hin Hk]|Hacc]%IH.
  - left. split; [by apply elem_of_cons; right | done].
  - destruct (decide (property_key (ms_id x) = k)) as [<-|Hne].
    + rewrite lookup_insert_eq in Hacc. injection Hacc as <-.
      left. split; [by apply elem_of_cons; left | done].
    + rewrite lookup_insert_ne in Hacc by done. by right.
Qed.

Lemma registry_fold_registered (l : list MapStyle) (accu : gmap string MapStyle)
    (k : string) :
  (is_Some (accu !! k) ∨ ∃ m, m ∈ l ∧ property_key (ms_id m) = k) →
  is_Some (foldl (fun accu curr => <[property_key (ms_id curr) := curr]> accu) accu l !! k).
Proof.
  revert accu. induction l as [|x l IH]; intros accu; cbn [foldl].
  - intros [H|(m & Hin & _)]; [done | by apply elem_of_nil in Hin].
  - intros H. apply IH.
    destruct (decide (property_key (ms_id x) = k)) as [<-|Hne].
    + left. by rewrite lookup_insert_eq.
    + destruct H as [H|(m & [->|Hin]%elem_of_cons & Hk)].
      * left. by rewrite lookup_insert_ne.
      * done.
      * right. by exists m.
Qed.

(** X14.  The registry of the default state holds the entries of
    [DEFAULT_MAP_STYLES] and nothing else, each under its own id, and every
    default style is registered. *)
Theorem default_registry :
  (∀ k m, mapStyles getDefaultState !! k = Some m →
          m ∈ DEFAULT_MAP_STYLES ∧ property_key (ms_id m) = k) ∧
  (∀ m, m ∈ DEFAULT_MAP_STYLES →
        is_Some (mapStyles getDefaultState !! property_key (ms_id m))).
Proof.
  cbn [mapStyles getDefaultState]. split.
  - intros k m [H|H]%registry_fold_lookup; [done | by rewrite lookup_empty in H].
  - intros m Hin. apply registry_fold_registered. right. by exists m.
Qed.

(** ** What the updaters never do *)



(** ** The batch of a saved configuration *)

(** X17.  [receiveMapConfigUpdater] throws exactly when
    [mapConfigChangeUpdater] does on the saved [mapStyle], and a saved
    [mapStyles] that is present and empty still attaches a batch, with no
    request in it. *)
Theorem receiveMapConfig_throws_and_empty_batch s (cfg : MapStyleConfig) :
  (∀ e, receiveMapConfigUpdater s (Some cfg) = Throw e ↔
        mapConfigChangeUpdater s cfg = Throw e) ∧
  (cfg_mapStyles cfg = Some ∅ →
   ∀ s', mapConfigChangeUpdater s cfg = Ok s' →
         receiveMapConfigUpdater s (Some cfg) = Ok (s', Some [])).
Proof.
  cbn [receiveMapConfigUpdater]. split.
  - intros e. destruct (mapConfigChangeUpdater s cfg) as [s'|e']; cbn [bind]; [done|].
    split; by intros [= ->].
  - intros Hempty s' ->. cbn [bind]. rewrite Hempty. cbn [fmap option_fmap option_map].
    unfold loadMapStyleTasks, Object_values. by rewrite map_to_list_empty.
Qed.

End Transitions.

(** * The further properties on the example states *)

Section MoreExamples.
Import Model.

Lemma classifier_keeps_matching_groups_witness :
  layers darkDoc = Some [layer "background" (Some {["background-color" := "#101010"]});
                         layer "road-primary" None; layer "place-label" None] ∧
  ∃ groups, getLayerGroupsFromStyle darkDoc = Ok groups ∧
            sublist groups DEFAULT_LAYER_GROUPS.
Proof.
  split; [reflexivity|].
  destruct (classifier_keeps_matching_groups darkDoc _ eq_refl) as (groups & H & _ & Hsub).
  exists groups. split; [exact H | exact Hsub].
Defined.

Lemma top_style_produced_iff_witness :
  ∃ r, getMapStyles labelsMasked = Ok (Some r) ∧
       res_editable r = size (visibleLayerGroups labelsMasked).
Proof.
  assert (Hr : ∃ r, getMapStyles labelsMasked = Ok (Some r)) by (eexists; reflexivity).
  destruct Hr as [r Hr]. exists r. split; [exact Hr|].
  exact (proj1 (top_style_produced_iff labelsMasked r Hr)).
Defined.

Lemma building_color_first_background_witness :
  buildingColor darkDoc =
  buildingColor {| doc_id := None; doc_name := None;
                   layers := Some [layer "background"
                                     (Some {["background-color" := "#101010"]})] |}.
Proof.
  apply (building_color_first_background darkDoc _ []
           [layer "road-primary" None; layer "place-label" None]
           (layer "background" (Some {["background-color" := "#101010"]})));
    [reflexivity | constructor | reflexivity | reflexivity].
Defined.

Lemma mapConfigChangeUpdater_idempotent_witness :
  ∃ s', mapConfigChangeUpdater lightLoaded selectDark = Ok s' ∧
        mapConfigChangeUpdater s' selectDark = Ok s'.
Proof.
  eexists. split; [reflexivity|].
  apply (mapConfigChangeUpdater_idempotent lightLoaded selectDark). reflexivity.
Defined.

Lemma loadMapStyles_known_is_noop_witness :
  darkAgain !! styleType lightLoaded = None ∧
  loadMapStylesUpdater lightLoaded darkAgain = Ok lightLoaded.
Proof.
  split; [reflexivity|].
  apply (loadMapStyles_known_is_noop lightLoaded darkAgain); [|reflexivity].
  apply map_singleton_subseteq_l. reflexivity.
Defined.

Lemma select_then_load_witness :
  ∃ s1 s2,
    mapStyleChangeUpdater lightLoaded "dark" = Ok s1 ∧
    loadMapStylesUpdater s1 {[ "dark" := darkEntry ]} = Ok s2 ∧
    styleType s2 = "dark" ∧
    bottomMapStyle s2 = Some (bottomEdit "dark" darkEntry darkDoc (visibleLayerGroups s2)).
Proof.
  destruct (select_then_load lightLoaded "dark"
              (entry "dark" "mapbox://styles/preset/dark" None) darkEntry darkDoc "dark"
              {[ "dark" := darkEntry ]})
    as (s1 & s2 & H1 & _ & _ & H2 & Ht & _ & Hb);
    [reflexivity | reflexivity | vm_compute; reflexivity | reflexivity | reflexivity |].
  exists s1, s2. split; [exact H1|]. split; [exact H2|]. split; [exact Ht | exact Hb].
Defined.

Lemma loadedMapStyles_resolves_witness :
  ∃ m layerGroups,
    loadedMapStyles {[ "custom_style_1" := customEntry ]} ∅ downloads = Ok m ∧
    m !! "custom_style_1" =
      Some (set_style_layerGroups customEntry layerGroups darkDoc).
Proof.
  assert (Hlayers : Forall (fun r : string * StyleDocument => is_Some (layers r.2)) downloads).
  { constructor; [by eexists | constructor]. }
  destruct (loadedMapStyles_resolves {[ "custom_style_1" := customEntry ]}
              downloads Hlayers ∅) as (m & Hm & _ & Hin).
  destruct (Hin (NoDup_singleton "custom_style_1") "custom_style_1" darkDoc)
    as (layerGroups & _ & Hlookup).
  { apply list_elem_of_singleton. reflexivity. }
  exists m, layerGroups. split; [exact Hm | exact Hlookup].
Defined.

Lemma loadCustomMapStyle_stages_only_witness :
  loadCustomMapStyleUpdater customStaged None None None = Ok customStaged ∧
  ∃ s', loadCustomMapStyleUpdater customStaged (Some "data:image/png;base64,AAAA") None None
          = Ok s' ∧
        ms_url (inputStyle s') = Some "mapbox://styles/user/custom".
Proof.
  destruct (loadCustomMapStyle_stages_only customStaged) as [Hnoop Hframe].
  split; [exact Hnoop|]. eexists. split; [reflexivity|].
  exact (proj1 (proj2 (Hframe (Some "data:image/png;base64,AAAA") None None _ eq_refl))).
Defined.

Lemma resolve_then_commit_witness :
  ∃ s1 s2,
    loadCustomMapStyleUpdater lightLoaded None (Some darkDoc) None = Ok s1 ∧
    addCustomMapStyleUpdater s1 = Ok s2 ∧
    styleType s2 = "dark" ∧
    resolvedStyle s2 "dark" = Some darkDoc.
Proof.
  destruct (resolve_then_commit lightLoaded None darkDoc None _ eq_refl)
    as (s1 & s2 & H1 & H2 & Ht & Hr & _).
  exists s1, s2. split; [exact H1|]. split; [exact H2|]. split; [exact Ht | exact Hr].
Defined.

Lemma resetMapConfigMapStyle_keeps_registry_witness :
  ∃ s', resetMapConfigMapStyleUpdater labelsMasked = Ok s' ∧
        mapStyles s' = mapStyles labelsMasked ∧
        styleType s' = "light" ∧
        resetMapConfigMapStyleUpdater s' = Ok s'.
Proof.
  assert (Hr : ∃ s', resetMapConfigMapStyleUpdater labelsMasked = Ok s')
    by (eexists; reflexivity).
  destruct Hr as [s' Hs'].
  destruct (resetMapConfigMapStyle_keeps_registry labelsMasked s' Hs')
    as (Hm & _ & Ht & Hagain).
  exists s'. split; [exact Hs'|]. split; [exact Hm|]. split; [exact Ht | exact Hagain].
Defined.



Lemma building_color_ignores_visibility_witness :
  ∃ r1 r2,
    getMapStyles lightLoaded = Ok (Some r1) ∧
    getMapStyles labelsMasked = Ok (Some r2) ∧
    res_threeDBuildingColor r1 = res_threeDBuildingColor r2.
Proof.
  assert (H1 : ∃ r, getMapStyles lightLoaded = Ok (Some r)) by (eexists; reflexivity).
  assert (H2 : ∃ r, getMapStyles labelsMasked = Ok (Some r)) by (eexists; reflexivity).
  destruct H1 as [r1 H1], H2 as [r2 H2]. exists r1, r2.
  split; [exact H1|]. split; [exact H2|].
  apply (building_color_ignores_visibility lightLoaded labelsMasked r1 r2 H1 H2).
  reflexivity.
Defined.

Lemma receiveMapConfig_throws_and_empty_batch_witness :
  ∃ s', receiveMapConfigUpdater lightLoaded (Some savedEmpty) = Ok (s', Some []).
Proof.
  assert (Hs : ∃ s', mapConfigChangeUpdater lightLoaded savedEmpty = Ok s')
    by (eexists; reflexivity).
  destruct Hs as [s' Hs']. exists s'.
  exact (proj2 (receiveMapConfig_throws_and_empty_batch lightLoaded savedEmpty)
               eq_refl s' Hs').
Defined.

End MoreExamples.
